(** * Custom actions of the chatbot backend ([backend/actions/actions.py])

    A shallow embedding of the four action classes
    [ActionFinancialAdvice], [ActionGenerateImage], [ActionGetFAQ] and
    [ActionSubmitSuggestion].

    - Python [str] values are sequences of Unicode code points.
    - Values that come back from [response.json()] are JSON values ([pyval]).
    - The outside world (HTTP endpoint, mail relay, MIME library) is a record
      of outcomes, [World]: each library call either returns or raises.
    - [run] is written in a state-and-exception monad whose state holds the
      messages collected by the dispatcher, the lines printed, and the trace
      of calls made to the outside world. *)

From Stdlib Require Import List NArith ZArith Bool String Ascii DecimalString Lia.
Import ListNotations.

Set Implicit Arguments.
Set Warnings "-register-all".

(* ===================================================================== *)
(** ** Python strings *)
(* ===================================================================== *)

Module PyStr.

(** A [str] is a sequence of code points. *)
Definition codepoint := N.
Definition pystr := list codepoint.

(** An ASCII literal of the source, as a [str]. *)
Definition lit (s : string) : pystr :=
  map N_of_ascii (list_ascii_of_string s).

Definition nl : pystr := [10%N].
Definition dquote : pystr := [34%N].
Definition bullet : pystr := [8226%N].     (* U+2022 *)
Definition emdash : pystr := [8212%N].     (* U+2014 *)

Definition eqb (a b : pystr) : bool :=
  if list_eq_dec N.eq_dec a b then true else false.

(** [s.startswith(p)] *)
Fixpoint startswith (p s : pystr) : bool :=
  match p, s with
  | [], _ => true
  | _ :: _, [] => false
  | a :: p', b :: s' => N.eqb a b && startswith p' s'
  end.

(** [sub in s] *)
Fixpoint contains (sub s : pystr) : bool :=
  startswith sub s ||
  match s with
  | [] => false
  | _ :: s' => contains sub s'
  end.

(** The code points for which [str.isspace] holds; [str.strip()] without
    argument removes exactly these. *)
Definition isspace (c : codepoint) : bool :=
  ((9 <=? c) && (c <=? 13) ||
   (28 <=? c) && (c <=? 32) ||
   (c =? 133) || (c =? 160) || (c =? 5760) ||
   (8192 <=? c) && (c <=? 8202) ||
   (c =? 8232) || (c =? 8233) || (c =? 8239) || (c =? 8287) ||
   (c =? 12288))%N.

Fixpoint lstrip (s : pystr) : pystr :=
  match s with
  | [] => []
  | c :: s' => if isspace c then lstrip s' else s
  end.

Definition rstrip (s : pystr) : pystr := rev (lstrip (rev s)).

(** [s.strip()] *)
Definition strip (s : pystr) : pystr := rstrip (lstrip s).

(** [s.replace(old, new)] for a non-empty [old]: occurrences are found
    left to right and do not overlap.  [skip] counts the code points of
    the occurrence just matched that are still to be passed over. *)
Fixpoint replace_from (old new s : pystr) (skip : nat) : pystr :=
  match s with
  | [] => []
  | c :: s' =>
      match skip with
      | S k => replace_from old new s' k
      | O =>
          if startswith old s
          then new ++ replace_from old new s' (List.length old - 1)
          else c :: replace_from old new s' 0
      end
  end.

(** [s.replace(old, new)]; with an empty [old] Python puts [new] before
    every code point and at the end. *)
Definition replace (old new s : pystr) : pystr :=
  match old with
  | [] => flat_map (fun c => new ++ [c]) s ++ new
  | _ :: _ => replace_from old new s 0
  end.

(** The part of [s] before the first occurrence of [c], and the part
    after it; [None] when [c] does not occur ([s.partition]). *)
Fixpoint split_first (c : codepoint) (s : pystr) : option (pystr * pystr) :=
  match s with
  | [] => None
  | d :: s' =>
      if N.eqb d c then Some ([], s')
      else match split_first c s' with
           | Some (h, t) => Some (d :: h, t)
           | None => None
           end
  end.

End PyStr.
Import PyStr.

(* ===================================================================== *)
(** ** Python values and exceptions *)
(* ===================================================================== *)

(** What [json.loads] can produce.  A float is kept as its literal; the
    actions never compute with one.  A [dict] is kept as its items. *)
Inductive pyval : Type :=
| PNone
| PBool (b : bool)
| PInt (z : Z)
| PFloat (literal : pystr)
| PStr (s : pystr)
| PList (items : list pyval)
| PDict (items : list (pystr * pyval)).

(** The exception classes the library calls and the subscripts can raise.
    Every one of them derives from [Exception], the class both handlers
    name. *)
Inductive exn : Type :=
| ConnectionError
| Timeout
| HTTPError (status : Z)
| JSONDecodeError
| KeyError
| IndexError
| TypeError
| AttributeError
| ValueError (msg : pystr)
| UnicodeEncodeError
| OSError
| SMTPConnectError
| SMTPServerDisconnected
| SMTPNotSupportedError
| SMTPAuthenticationError
| SMTPSenderRefused
| SMTPRecipientsRefused
| SMTPDataError.

Inductive result (A : Type) : Type :=
| Ok (a : A)
| Raise (e : exn).
Arguments Ok {A} a.
Arguments Raise {A} e.

(** Chaining of steps that may raise, outside any state. *)
Definition and_then {A B} (r : result A) (k : A -> result B) : result B :=
  match r with
  | Ok a => k a
  | Raise e => Raise e
  end.

Notation "r >>= k" := (and_then r k) (at level 50, left associativity).

Module Py.

Fixpoint dict_get (d : list (pystr * pyval)) (k : pystr) : option pyval :=
  match d with
  | [] => None
  | (k', v) :: d' => if PyStr.eqb k' k then Some v else dict_get d' k
  end.

(** Position of index [i] in a sequence of length [n], Python style:
    negative indices count from the end. *)
Definition index_pos (n : nat) (i : Z) : option nat :=
  if (0 <=? i)%Z && (i <? Z.of_nat n)%Z then Some (Z.to_nat i)
  else if (- Z.of_nat n <=? i)%Z && (i <? 0)%Z then Some (Z.to_nat (Z.of_nat n + i))
  else None.

(** [v[k]] for a string key [k]. *)
Definition getitem_key (v : pyval) (k : pystr) : result pyval :=
  match v with
  | PDict d =>
      match dict_get d k with
      | Some x => Ok x
      | None => Raise KeyError
      end
  | _ => Raise TypeError
  end.

(** [v[i]] for an integer [i].  A JSON object has string keys only, so an
    integer is never one of them. *)
Definition getitem_index (v : pyval) (i : Z) : result pyval :=
  match v with
  | PList l =>
      match index_pos (List.length l) i with
      | Some n => match nth_error l n with
                  | Some x => Ok x
                  | None => Raise IndexError
                  end
      | None => Raise IndexError
      end
  | PStr s =>
      match index_pos (List.length s) i with
      | Some n => match nth_error s n with
                  | Some c => Ok (PStr [c])
                  | None => Raise IndexError
                  end
      | None => Raise IndexError
      end
  | PDict _ => Raise KeyError
  | _ => Raise TypeError
  end.

(** Truth value of an [Optional[str]]: [None] and [''] are false. *)
Definition truthy_opt (o : option pystr) : bool :=
  match o with
  | Some (_ :: _) => true
  | _ => false
  end.

(** Truth value of a [str]. *)
Definition truthy_str (s : pystr) : bool :=
  match s with
  | [] => false
  | _ :: _ => true
  end.

(** The [str] on which a [str] method such as [v.replace] is called;
    a value of another type has no such attribute. *)
Definition str_of (v : pyval) : result pystr :=
  match v with
  | PStr s => Ok s
  | _ => Raise AttributeError
  end.

(** [f"{o}"] for an [Optional[str]]. *)
Definition format_opt (o : option pystr) : pystr :=
  match o with
  | Some s => s
  | None => lit "None"
  end.

End Py.

(* ===================================================================== *)
(** ** The objects the actions work with *)
(* ===================================================================== *)

(** [tracker]: the actions read one thing from it, the ['text'] entry of
    [tracker.latest_message].  The key may be absent; when it is there,
    the entry holds the text the user typed (a [str]), or [None] when the
    turn has no user text, or whatever other value the dialogue engine
    put there. *)
Record Tracker : Type := {
  latest_message_text : option pyval
}.

(** [tracker.latest_message.get('text', '')]: the default is for an
    absent key only, an entry that holds [None] gives [None]. *)
Definition get_text (tracker : Tracker) : pyval :=
  match latest_message_text tracker with
  | Some v => v
  | None => PStr []
  end.

(** One message collected by [dispatcher.utter_message(text=, image=)].
    [text] is whatever value the action passed. *)
Record OutgoingMessage : Type := {
  text : pyval;
  image : option pystr
}.

(** State-mutation events an action may return ([rasa_sdk.events]). *)
Inductive Event : Type :=
| SlotSet (key : pystr) (value : pyval).

(** The module-level configuration, read from the environment at import;
    [os.getenv] gives [None] for a variable that is not set. *)
Record Config : Type := {
  GEMINI_API_KEY : option pystr;
  IMAGE_API_KEY : option pystr;
  EMAIL_ADDRESS : option pystr;
  EMAIL_PASSWORD : option pystr
}.

(** The arguments of one [requests.post] call.  [timeout] is the keyword
    of that name: [None] when the call does not pass it, which is also the
    library's default and means that the call waits without bound. *)
Record http_request : Type := {
  url : pystr;
  headers : list (pystr * pystr);
  json : pyval;
  timeout : option Z
}.

(** What the code looks at in a [requests.Response]: the status, and the
    body as [json.loads] reads it ([None] when the body is not JSON). *)
Record Response : Type := {
  status_code : Z;
  body : option pyval
}.

(** The [MIMEMultipart] message the suggestion action builds. *)
Record Envelope : Type := {
  hdr_From : option pystr;             (* msg['From'] *)
  hdr_To : pystr;                      (* msg['To'] *)
  hdr_Subject : pystr;                 (* msg['Subject'] *)
  attached : list (pystr * pystr)      (* MIMEText parts: subtype, payload *)
}.

(** Calls that leave the process, in the order they are made. *)
Inductive call : Type :=
| RequestsPost (r : http_request)
| SMTPOpen (host : pystr) (port : Z) (tmo : option Z)
| SMTPStarttls
| SMTPLogin (user password : option pystr)
| SMTPSendmail (from_addr : option pystr) (to_addr : pystr) (msg : pystr)
| SMTPQuit.

(** The outside world: what each library call does when it is made. *)
Record World : Type := {
  post : http_request -> result Response;
  smtp_connect : pystr -> Z -> result unit;
  smtp_starttls : result unit;
  smtp_login : option pystr -> option pystr -> result unit;
  smtp_sendmail : option pystr -> pystr -> pystr -> result unit;
  smtp_quit : result unit;
  mime_text : pystr -> pystr -> result unit;   (* MIMEText(body, subtype) *)
  mime_as_string : Envelope -> result pystr;   (* msg.as_string() *)
  repr : pyval -> pystr                        (* repr of a list or dict *)
}.

(** What an invocation leaves behind. *)
Record St : Type := {
  messages : list OutgoingMessage;      (* dispatcher.messages *)
  printed : list (pystr * exn);         (* lines sent to print *)
  calls : list call
}.

Definition st0 : St := {| messages := []; printed := []; calls := [] |}.

(* ===================================================================== *)
(** ** State and exceptions *)
(* ===================================================================== *)

Definition M (A : Type) : Type := St -> result A * St.

Definition ret {A} (a : A) : M A := fun s => (Ok a, s).

Definition raise {A} (e : exn) : M A := fun s => (Raise e, s).

Definition bind {A B} (m : M A) (k : A -> M B) : M B :=
  fun s =>
    match m s with
    | (Ok a, s') => k a s'
    | (Raise e, s') => (Raise e, s')
    end.

(** [try: body except Exception as e: handler]; every [exn] is an
    [Exception]. *)
Definition try_except {A} (body : M A) (handler : exn -> M A) : M A :=
  fun s =>
    match body s with
    | (Ok a, s') => (Ok a, s')
    | (Raise e, s') => handler e s'
    end.

Definition lift {A} (r : result A) : M A := fun s => (r, s).

Definition record_call (c : call) : M unit :=
  fun s => (Ok tt, {| messages := messages s;
                      printed := printed s;
                      calls := calls s ++ [c] |}).

Declare Scope py_scope.
Delimit Scope py_scope with py.
Notation "x <- m ;; k" := (bind m (fun x => k))
  (at level 61, m at next level, right associativity) : py_scope.
Notation "m ;; k" := (bind m (fun _ => k))
  (at level 61, right associativity) : py_scope.
Open Scope py_scope.

(** [dispatcher.utter_message(text=t, image=i)] *)
Definition utter_message (t : pyval) (i : option pystr) : M unit :=
  fun s => (Ok tt, {| messages := messages s ++ [{| text := t; image := i |}];
                      printed := printed s;
                      calls := calls s |}).

(** [print(f"{prefix}{e}")] *)
Definition print (prefix : pystr) (e : exn) : M unit :=
  fun s => (Ok tt, {| messages := messages s;
                      printed := printed s ++ [(prefix, e)];
                      calls := calls s |}).

Section Library.

Variable w : World.

(** [requests.post(url, headers=, json=)] *)
Definition requests_post (r : http_request) : M Response :=
  record_call (RequestsPost r) ;; lift (post w r).

(** [response.raise_for_status()]: [HTTPError] for a 4xx or 5xx status. *)
Definition raise_for_status (r : Response) : M unit :=
  if (400 <=? status_code r)%Z && (status_code r <? 600)%Z
  then raise (HTTPError (status_code r))
  else ret tt.

(** [response.json()] *)
Definition response_json (r : Response) : M pyval :=
  match body r with
  | Some v => ret v
  | None => raise JSONDecodeError
  end.

(** [f"{v}"] *)
Definition format_value (v : pyval) : pystr :=
  match v with
  | PStr s => s
  | PNone => lit "None"
  | PBool true => lit "True"
  | PBool false => lit "False"
  | PInt z => lit (DecimalString.NilZero.string_of_int (Z.to_int z))
  | PFloat l => l
  | PList _ | PDict _ => repr w v
  end.

(** [f"{user_message}"]: the latest message as the f-strings of the
    actions render it; a [str] is rendered as it is. *)
Definition message_text (tracker : Tracker) : pystr :=
  format_value (get_text tracker).

(** [smtplib.SMTP(host, port)] *)
Definition SMTP (host : pystr) (port : Z) : M unit :=
  record_call (SMTPOpen host port None) ;; lift (smtp_connect w host port).

Definition server_starttls : M unit :=
  record_call SMTPStarttls ;; lift (smtp_starttls w).

Definition server_login (user password : option pystr) : M unit :=
  record_call (SMTPLogin user password) ;; lift (smtp_login w user password).

Definition server_sendmail (from_addr : option pystr) (to_addr msg : pystr) : M unit :=
  record_call (SMTPSendmail from_addr to_addr msg) ;;
  lift (smtp_sendmail w from_addr to_addr msg).

Definition server_quit : M unit :=
  record_call SMTPQuit ;; lift (smtp_quit w).

End Library.

(* ===================================================================== *)
(** ** The actions *)
(* ===================================================================== *)

Definition GEMINI_API_URL : pystr :=
  lit "https://generativelanguage.googleapis.com/v1beta/models/gemini-1.5-pro-latest:generateContent".

Definition TO_EMAIL : pystr := lit "professionalbusinessadvisory@gmail.com".

Module ActionFinancialAdvice.

Definition name : pystr := lit "action_financial_advice".

Definition template : pystr :=
  lit "As a financial advisor, please provide helpful advice for: ".

Definition fallback : pystr :=
  lit "I apologize, but I'm having trouble accessing my financial knowledge right now. Please try again in a moment.".

Definition payload (user_message : pystr) : pyval :=
  PDict [(lit "contents",
          PList [PDict [(lit "role", PStr (lit "user"));
                        (lit "parts",
                         PList [PDict [(lit "text",
                                        PStr (template ++ user_message))]])]])].

Definition request (cfg : Config) (user_message : pystr) : http_request :=
  {| url := GEMINI_API_URL ++ lit "?key=" ++ Py.format_opt (GEMINI_API_KEY cfg);
     headers := [(lit "Content-Type", lit "application/json")];
     json := payload user_message;
     timeout := None |}.

(** [gemini_response['candidates'][0]['content']['parts'][0]['text']] *)
Definition text_of (gemini_response : pyval) : result pyval :=
  Py.getitem_key gemini_response (lit "candidates") >>= fun a =>
  Py.getitem_index a 0 >>= fun b =>
  Py.getitem_key b (lit "content") >>= fun c =>
  Py.getitem_key c (lit "parts") >>= fun d =>
  Py.getitem_index d 0 >>= fun e =>
  Py.getitem_key e (lit "text").

Definition run (cfg : Config) (w : World) (tracker : Tracker) : M (list Event) :=
  let user_message := get_text tracker in
  try_except
    (response <- requests_post w (request cfg (format_value w user_message)) ;;
     raise_for_status response ;;
     gemini_response <- response_json response ;;
     text_response <- lift (text_of gemini_response) ;;
     utter_message text_response None)
    (fun e =>
       print (lit "Error in financial advice: ") e ;;
       utter_message (PStr fallback) None) ;;
  ret [].

End ActionFinancialAdvice.

Module ActionGenerateImage.

Definition name : pystr := lit "action_generate_image".

Definition trigger : pystr := lit "/imagine".

Definition usage : pystr :=
  lit "Please provide a prompt for image generation. Use '/imagine [your prompt]'".

Definition caption : pystr := lit "Here's your generated image:".

Definition fallback : pystr :=
  lit "I apologize, but I'm having trouble generating images right now. Please try again in a moment.".

Definition endpoint : pystr :=
  lit "https://api.stability.ai/v1/generation/stable-diffusion-v1-6/text-to-image".

Definition data_uri_prefix : pystr := lit "data:image/png;base64,".

(** [f"data:image/png;base64,{image_b64}"], the value already formatted *)
Definition data_uri (image_b64 : pystr) : pystr := data_uri_prefix ++ image_b64.

(** [user_message.replace('/imagine', '').strip()] *)
Definition prompt_of (user_message : pystr) : pystr :=
  strip (replace trigger [] user_message).

Definition request (api_key prompt : pystr) : http_request :=
  {| url := endpoint;
     headers := [(lit "Content-Type", lit "application/json");
                 (lit "Accept", lit "application/json");
                 (lit "Authorization", lit "Bearer " ++ api_key)];
     json := PDict [(lit "text_prompts", PList [PDict [(lit "text", PStr prompt)]]);
                    (lit "cfg_scale", PInt 7);
                    (lit "height", PInt 512);
                    (lit "width", PInt 512);
                    (lit "samples", PInt 1);
                    (lit "steps", PInt 30)];
     timeout := None |}.

(** [data["artifacts"][0]["base64"]] *)
Definition base64_of (data : pyval) : result pyval :=
  Py.getitem_key data (lit "artifacts") >>= fun a =>
  Py.getitem_index a 0 >>= fun b =>
  Py.getitem_key b (lit "base64").

Definition run (cfg : Config) (w : World) (tracker : Tracker) : M (list Event) :=
  let user_message := get_text tracker in
  text <- lift (Py.str_of user_message) ;;
  let prompt := prompt_of text in
  if negb (Py.truthy_str prompt) then
    utter_message (PStr usage) None ;;
    ret []
  else
    try_except
      (let api_key := IMAGE_API_KEY cfg in
       (if negb (Py.truthy_opt api_key)
        then raise (ValueError (lit "IMAGE_API_KEY not found in environment variables."))
        else ret tt) ;;
       response <- requests_post w (request (Py.format_opt api_key) prompt) ;;
       raise_for_status response ;;
       data <- response_json response ;;
       image_b64 <- lift (base64_of data) ;;
       let image_data := data_uri (format_value w image_b64) in
       utter_message (PStr caption) (Some image_data))
      (fun e =>
         print (lit "Error generating image: ") e ;;
         utter_message (PStr fallback) None) ;;
    ret [].

End ActionGenerateImage.

Module ActionGetFAQ.

Definition name : pystr := lit "action_get_faq".

Definition faq_message : pystr :=
  lit "Here are some frequently asked questions:" ++ nl ++
  nl ++
  lit "**Brand**" ++ nl ++
  bullet ++ lit " What is Impact Ventures? - Impact Ventures is a brand that curates premium colognes and AI models, blending craftsmanship with cutting-edge innovation." ++ nl ++
  bullet ++ lit " Where are you based? - We operate online, serving customers worldwide with exclusive fragrances and AI-powered product recommendations." ++ nl ++
  nl ++
  lit "**Ordering & Shipping**" ++ nl ++
  bullet ++ lit " How can I place an order? - Simply browse our collection, select your favorite cologne, and proceed to checkout." ++ nl ++
  bullet ++ lit " Do you offer international shipping? - Yes! We ship globally. Shipping rates and delivery times vary based on location." ++ nl ++
  nl ++
  lit "**Product**" ++ nl ++
  bullet ++ lit " Are your colognes made with natural ingredients? - We prioritize high-quality, ethically sourced ingredients." ++ nl ++
  bullet ++ lit " How should I apply cologne for best results? - Apply to pulse points" ++ emdash ++ lit "wrists, neck, and behind the ears." ++ nl ++
  nl ++
  lit "For more detailed FAQ information, please visit our FAQ page on the website.".

Definition run (cfg : Config) (w : World) (tracker : Tracker) : M (list Event) :=
  utter_message (PStr faq_message) None ;;
  ret [].

End ActionGetFAQ.

Module ActionSubmitSuggestion.

Definition name : pystr := lit "action_submit_suggestion".

Definition confirmation : pystr :=
  lit "Thank you for your suggestion! It has been sent to our team for review.".

Definition fallback : pystr :=
  lit "Thank you for your suggestion! I've noted it down for our team.".

Definition body_head : pystr :=
  nl ++
  lit "            <html><body>" ++ nl ++
  lit "            <h2 style=" ++ dquote ++ lit "color: #014B7B;" ++ dquote ++ lit ">New Service Suggestion</h2>" ++ nl ++
  lit "            <p style=" ++ dquote ++ lit "font-size: 16px;" ++ dquote ++ lit ">A new suggestion has been submitted via the PBASC chatbot:</p>" ++ nl ++
  lit "            <p style=" ++ dquote ++ lit "font-size: 16px; color: #4CAF50;" ++ dquote ++ lit ">" ++ dquote.

Definition body_tail : pystr :=
  dquote ++ lit "</p>" ++ nl ++
  lit "            </body></html>" ++ nl ++
  lit "            ".

Definition body (user_message : pystr) : pystr :=
  body_head ++ user_message ++ body_tail.

Definition envelope (cfg : Config) (user_message : pystr) : Envelope :=
  {| hdr_From := EMAIL_ADDRESS cfg;
     hdr_To := TO_EMAIL;
     hdr_Subject := lit "New Service Suggestion for PBASC";
     attached := [(lit "html", body user_message)] |}.

Definition run (cfg : Config) (w : World) (tracker : Tracker) : M (list Event) :=
  let user_message := get_text tracker in
  try_except
    (lift (mime_text w (body (format_value w user_message)) (lit "html")) ;;
     let msg := envelope cfg (format_value w user_message) in
     SMTP w (lit "smtp.gmail.com") 587 ;;
     server_starttls w ;;
     server_login w (EMAIL_ADDRESS cfg) (EMAIL_PASSWORD cfg) ;;
     text <- lift (mime_as_string w msg) ;;
     server_sendmail w (EMAIL_ADDRESS cfg) TO_EMAIL text ;;
     server_quit w ;;
     utter_message (PStr confirmation) None)
    (fun e =>
       print (lit "Error sending suggestion email: ") e ;;
       utter_message (PStr fallback) None) ;;
  ret [].

End ActionSubmitSuggestion.

(** The four registered actions, and the method each class gives for
    [name] and [run]. *)
Inductive Action : Type :=
| FinancialAdvice
| GenerateImage
| GetFAQ
| SubmitSuggestion.

Definition name (a : Action) : pystr :=
  match a with
  | FinancialAdvice => ActionFinancialAdvice.name
  | GenerateImage => ActionGenerateImage.name
  | GetFAQ => ActionGetFAQ.name
  | SubmitSuggestion => ActionSubmitSuggestion.name
  end.

Definition run (a : Action) : Config -> World -> Tracker -> M (list Event) :=
  match a with
  | FinancialAdvice => ActionFinancialAdvice.run
  | GenerateImage => ActionGenerateImage.run
  | GetFAQ => ActionGetFAQ.run
  | SubmitSuggestion => ActionSubmitSuggestion.run
  end.

(** One invocation, started with an empty dispatcher and an empty trace. *)
Definition invoke (a : Action) (cfg : Config) (w : World) (t : Tracker)
  : result (list Event) * St :=
  run a cfg w t st0.

Definition returned (a : Action) cfg w t : result (list Event) := fst (invoke a cfg w t).
Definition emitted (a : Action) cfg w t : list OutgoingMessage := messages (snd (invoke a cfg w t)).
Definition trace (a : Action) cfg w t : list call := calls (snd (invoke a cfg w t)).

(* ===================================================================== *)
(** ** Notions the properties are stated with *)
(* ===================================================================== *)

(** The message has a text, and the text is not empty. *)
Definition nonempty_text (m : OutgoingMessage) : bool :=
  match text m with
  | PStr (_ :: _) => true
  | _ => false
  end.

Definition plain (s : pystr) : OutgoingMessage :=
  {| text := PStr s; image := None |}.

(** The timeout a call is made with, for the calls that take one. *)
Definition call_timeout (c : call) : option (option Z) :=
  match c with
  | RequestsPost r => Some (timeout r)
  | SMTPOpen _ _ tmo => Some tmo
  | _ => None
  end.

(** The call is one that waits on the network and has a bound on it. *)
Definition bounded (c : call) : bool :=
  match call_timeout c with
  | Some None => false
  | _ => true
  end.

Definition is_open (c : call) : bool :=
  match c with SMTPOpen _ _ _ => true | _ => false end.

Definition is_quit (c : call) : bool :=
  match c with SMTPQuit => true | _ => false end.

Definition is_post (c : call) : bool :=
  match c with RequestsPost _ => true | _ => false end.

Definition count (p : call -> bool) (tr : list call) : nat :=
  List.length (filter p tr).

(** [raise_for_status] lets the status through. *)
Definition status_passes (r : Response) : bool :=
  negb ((400 <=? status_code r)%Z && (status_code r <? 600)%Z).


Module Spec.

(** The parse as the specification words it: the leading trigger token is
    taken off, the rest is trimmed. *)
Definition strip_trigger (user_message : pystr) : pystr :=
  if startswith ActionGenerateImage.trigger user_message
  then strip (skipn (List.length ActionGenerateImage.trigger) user_message)
  else strip user_message.

End Spec.

(** The message holds nothing but trigger tokens and whitespace: taking
    the tokens out, wherever they stand, leaves no content. *)
Inductive tokens_and_blanks : pystr -> Prop :=
| tb_end : tokens_and_blanks []
| tb_blank c s :
    isspace c = true -> tokens_and_blanks s -> tokens_and_blanks (c :: s)
| tb_token s :
    tokens_and_blanks s -> tokens_and_blanks (ActionGenerateImage.trigger ++ s).

(** *** Reading a data URI back

    The reader's side of [data:<mediatype>;base64,<data>] (RFC 2397) with
    the base64 alphabet of RFC 4648; bytes are numbers below 256. *)
Module DataURI.

Definition sextet (c : codepoint) : option N :=
  (if (65 <=? c) && (c <=? 90) then Some (c - 65)
   else if (97 <=? c) && (c <=? 122) then Some (c - 71)
   else if (48 <=? c) && (c <=? 57) then Some (c + 4)
   else if c =? 43 then Some 62
   else if c =? 47 then Some 63
   else None)%N.

Definition pad : codepoint := 61%N.

Fixpoint b64decode (s : pystr) : option (list N) :=
  match s with
  | [] => Some []
  | a :: b :: c :: d :: rest =>
      match sextet a, sextet b with
      | Some x, Some y =>
          let b0 := (x * 4 + y / 16)%N in
          if N.eqb c pad && N.eqb d pad then
            match rest with [] => Some [b0] | _ => None end
          else
            match sextet c with
            | Some z =>
                let b1 := ((y mod 16) * 16 + z / 4)%N in
                if N.eqb d pad then
                  match rest with [] => Some [b0; b1] | _ => None end
                else
                  match sextet d, b64decode rest with
                  | Some u, Some bs => Some (b0 :: b1 :: ((z mod 4) * 64 + u)%N :: bs)
                  | _, _ => None
                  end
            | None => None
            end
      | _, _ => None
      end
  | _ => None
  end.

Definition endswith (p s : pystr) : bool := startswith (rev p) (rev s).

(** The base64 text a data URI carries: what follows the first comma,
    when the part before it starts with [data:] and ends with [;base64]. *)
Definition payload (uri : pystr) : option pystr :=
  match split_first 44%N uri with
  | Some (h, d) =>
      if startswith (lit "data:") h && endswith (lit ";base64") h
      then Some d else None
  | None => None
  end.

Definition decode (uri : pystr) : option (list N) :=
  match payload uri with
  | Some d => b64decode d
  | None => None
  end.

End DataURI.

(** The result of a run that returned [[]] and left [ms], [ps] and [cs]
    behind. *)
Definition ended (ms : list OutgoingMessage) (ps : list (pystr * exn))
    (cs : list call) : result (list Event) * St :=
  (Ok [], {| messages := ms; printed := ps; calls := cs |}).

(** The fixed text an action falls back to; the FAQ action has no
    failure path and always sends its text. *)
Definition fallback_of (a : Action) : pystr :=
  match a with
  | FinancialAdvice => ActionFinancialAdvice.fallback
  | GenerateImage => ActionGenerateImage.fallback
  | GetFAQ => ActionGetFAQ.faq_message
  | SubmitSuggestion => ActionSubmitSuggestion.fallback
  end.

(** The exception with which the mail session of a suggestion ends, if a
    call on the relay raises one: the calls are made in this order, and
    [as_string] is made between [login] and [sendmail]. *)
Definition session_failure (cfg : Config) (w : World) (user_message : pystr)
  : option exn :=
  match smtp_connect w (lit "smtp.gmail.com") 587 with
  | Raise e => Some e
  | Ok _ =>
  match smtp_starttls w with
  | Raise e => Some e
  | Ok _ =>
  match smtp_login w (EMAIL_ADDRESS cfg) (EMAIL_PASSWORD cfg) with
  | Raise e => Some e
  | Ok _ =>
  match mime_as_string w (ActionSubmitSuggestion.envelope cfg user_message) with
  | Raise _ => None
  | Ok text =>
  match smtp_sendmail w (EMAIL_ADDRESS cfg) TO_EMAIL text with
  | Raise e => Some e
  | Ok _ =>
  match smtp_quit w with
  | Raise e => Some e
  | Ok _ => None
  end end end end end end.

(** The external call of the action is reached and raises [Timeout]. *)
Definition times_out (a : Action) (cfg : Config) (w : World) (t : Tracker) : Prop :=
  match a with
  | FinancialAdvice =>
      post w (ActionFinancialAdvice.request cfg (message_text w t)) = Raise Timeout
  | GenerateImage =>
      exists s k,
        get_text t = PStr s /\
        IMAGE_API_KEY cfg = Some k /\ k <> [] /\
        ActionGenerateImage.prompt_of s <> [] /\
        post w (ActionGenerateImage.request k
                  (ActionGenerateImage.prompt_of s)) = Raise Timeout
  | GetFAQ => False
  | SubmitSuggestion =>
      mime_text w (ActionSubmitSuggestion.body (message_text w t)) (lit "html") = Ok tt /\
      session_failure cfg w (message_text w t) = Some Timeout
  end.

(** *** Inputs used to exercise the model *)
Module Sample.

Definition cfg : Config :=
  {| GEMINI_API_KEY := Some (lit "g-key");
     IMAGE_API_KEY := Some (lit "i-key");
     EMAIL_ADDRESS := Some (lit "bot@example.com");
     EMAIL_PASSWORD := Some (lit "secret") |}.

Definition cfg_no_image_key : Config :=
  {| GEMINI_API_KEY := Some (lit "g-key");
     IMAGE_API_KEY := None;
     EMAIL_ADDRESS := Some (lit "bot@example.com");
     EMAIL_PASSWORD := Some (lit "secret") |}.

Definition says (s : string) : Tracker :=
  {| latest_message_text := Some (PStr (lit s)) |}.

(** A world whose endpoint answers every request with [p], whose relay
    answers the login with [l], and where everything else goes well. *)
Definition world (p : result Response) (l : result unit) : World :=
  {| post := fun _ => p;
     smtp_connect := fun _ _ => Ok tt;
     smtp_starttls := Ok tt;
     smtp_login := fun _ _ => l;
     smtp_sendmail := fun _ _ _ => Ok tt;
     smtp_quit := Ok tt;
     mime_text := fun _ _ => Ok tt;
     mime_as_string := fun _ => Ok (lit "MIME");
     repr := fun _ => lit "<repr>" |}.

(** A world whose relay cannot be reached within the time it allows. *)
Definition world_relay_timeout : World :=
  {| post := fun _ => Raise Timeout;
     smtp_connect := fun _ _ => Raise Timeout;
     smtp_starttls := Ok tt;
     smtp_login := fun _ _ => Ok tt;
     smtp_sendmail := fun _ _ _ => Ok tt;
     smtp_quit := Ok tt;
     mime_text := fun _ _ => Ok tt;
     mime_as_string := fun _ => Ok (lit "MIME");
     repr := fun _ => lit "<repr>" |}.

(** [{"candidates": [{"content": {"parts": [{"text": t}]}}]}] *)
Definition gemini_body (t : pyval) : pyval :=
  PDict [(lit "candidates",
          PList [PDict [(lit "content",
                         PDict [(lit "parts",
                                 PList [PDict [(lit "text", t)]])])]])].

(** [{"artifacts": [{"base64": b}]}] *)
Definition image_body (b : pyval) : pyval :=
  PDict [(lit "artifacts", PList [PDict [(lit "base64", b)]])].

Definition answer (status : Z) (v : pyval) : result Response :=
  Ok {| status_code := status; body := Some v |}.

(** The text service answers 200 with an empty text. *)
Definition empty_reply : World :=
  world (answer 200 (gemini_body (PStr []))) (Ok tt).


(** The endpoint cannot be reached. *)
Definition unreachable : World := world (Raise ConnectionError) (Ok tt).

(** The request to the endpoint times out. *)
Definition slow_endpoint : World := world (Raise Timeout) (Ok tt).

(** The relay refuses the login. *)
Definition login_refused : World :=
  world (Raise ConnectionError) (Raise SMTPAuthenticationError).

(** The image service answers 200 with [artifacts[0].base64 = "AAAA"]. *)
Definition image_reply : World :=
  world (answer 200 (image_body (PStr (lit "AAAA")))) (Ok tt).

End Sample.

(* ===================================================================== *)
(** ** Further notions, for the properties beyond the specification *)
(* ===================================================================== *)

Definition is_sendmail (c : call) : bool :=
  match c with SMTPSendmail _ _ _ => true | _ => false end.

(** The call is one made on the mail relay. *)
Definition is_smtp (c : call) : bool :=
  match c with RequestsPost _ => false | _ => true end.

(** The text each handler puts before the exception it prints. *)
Definition log_prefix (a : Action) : pystr :=
  match a with
  | FinancialAdvice => lit "Error in financial advice: "
  | GenerateImage => lit "Error generating image: "
  | GetFAQ => []
  | SubmitSuggestion => lit "Error sending suggestion email: "
  end.

(** The steps of a suggestion up to and including [sendmail] all go
    well, and [text] is the serialised message handed to the relay. *)
Definition handed_over (cfg : Config) (w : World) (user_message text : pystr) : Prop :=
  mime_text w (ActionSubmitSuggestion.body user_message) (lit "html") = Ok tt /\
  smtp_connect w (lit "smtp.gmail.com") 587 = Ok tt /\
  smtp_starttls w = Ok tt /\
  smtp_login w (EMAIL_ADDRESS cfg) (EMAIL_PASSWORD cfg) = Ok tt /\
  mime_as_string w (ActionSubmitSuggestion.envelope cfg user_message) = Ok text /\
  smtp_sendmail w (EMAIL_ADDRESS cfg) TO_EMAIL text = Ok tt.

Module More.

(** The relay takes the mail and then fails on [quit]. *)
Definition quit_fails : World :=
  {| post := fun _ => Raise ConnectionError;
     smtp_connect := fun _ _ => Ok tt;
     smtp_starttls := Ok tt;
     smtp_login := fun _ _ => Ok tt;
     smtp_sendmail := fun _ _ _ => Ok tt;
     smtp_quit := Raise SMTPServerDisconnected;
     mime_text := fun _ _ => Ok tt;
     mime_as_string := fun _ => Ok (lit "MIME");
     repr := fun _ => lit "<repr>" |}.

Definition cfg_no_text_key : Config :=
  {| GEMINI_API_KEY := None;
     IMAGE_API_KEY := Some (lit "i-key");
     EMAIL_ADDRESS := Some (lit "bot@example.com");
     EMAIL_PASSWORD := Some (lit "secret") |}.

(** A snapshot whose latest message has no ['text'] entry. *)
Definition no_text : Tracker := {| latest_message_text := None |}.

(** A snapshot of a turn without user text: the entry is there and holds
    [None]. *)
Definition none_text : Tracker := {| latest_message_text := Some PNone |}.

(** The image service answers 200 with [artifacts[0].base64 = null]. *)
Definition null_image_reply : World :=
  Sample.world (Sample.answer 200 (Sample.image_body PNone)) (Ok tt).


(** The text service answers 600 with a well-formed body. *)
Definition odd_status_reply : World :=
  Sample.world (Sample.answer 600 (Sample.gemini_body (PStr (lit "Diversify.")))) (Ok tt).

End More.

(* ===================================================================== *)
(** ** Facts about strings *)
(* ===================================================================== *)

Section StringFacts.

Lemma eqb_eq a b : PyStr.eqb a b = true <-> a = b.
Proof.
  unfold PyStr.eqb. destruct (list_eq_dec N.eq_dec a b); split; congruence.
Qed.

Lemma startswith_app p rest : startswith p (p ++ rest) = true.
Proof.
  induction p as [|a p IH]; simpl; [reflexivity|].
  rewrite N.eqb_refl. exact IH.
Qed.

Lemma startswith_split p : forall s,
  startswith p s = true -> s = p ++ skipn (List.length p) s.
Proof.
  induction p as [|a p IH]; intros s H; simpl in *; [reflexivity|].
  destruct s as [|b s]; [discriminate|].
  apply andb_true_iff in H. destruct H as [Hab Hp].
  apply N.eqb_eq in Hab. subst b. f_equal. apply IH. exact Hp.
Qed.

Lemma skipn_app_exact (p rest : pystr) : skipn (List.length p) (p ++ rest) = rest.
Proof. induction p; simpl; auto. Qed.

(** Passing over the rest of a matched occurrence. *)
Lemma replace_from_skip old new p : forall rest,
  replace_from old new (p ++ rest) (List.length p) = replace_from old new rest 0.
Proof.
  induction p as [|a p IH]; intros rest; simpl.
  - destruct rest; reflexivity.
  - apply IH.
Qed.

(** Where [old] does not occur, nothing is replaced. *)
Lemma replace_from_absent old new : forall s,
  contains old s = false -> replace_from old new s 0 = s.
Proof.
  induction s as [|c s IH]; intros H; [reflexivity|].
  cbn [contains] in H. apply orb_false_iff in H. destruct H as [Hs Hc].
  cbn [replace_from]. rewrite Hs. f_equal. apply IH. exact Hc.
Qed.

(** A leading occurrence is replaced, and the scan goes on after it. *)
Lemma replace_leading c old new rest :
  replace (c :: old) new ((c :: old) ++ rest) = new ++ replace (c :: old) new rest.
Proof.
  unfold replace. cbn [app replace_from].
  change (c :: old ++ rest) with ((c :: old) ++ rest).
  rewrite startswith_app. f_equal.
  replace (List.length (c :: old) - 1) with (List.length old)
    by (cbn [List.length]; lia).
  apply replace_from_skip.
Qed.

Lemma replace_absent c old new s :
  contains (c :: old) s = false -> replace (c :: old) new s = s.
Proof. unfold replace. apply replace_from_absent. Qed.

Lemma lstrip_blank s : forallb isspace s = true -> lstrip s = [].
Proof.
  induction s as [|c s IH]; simpl; [reflexivity|].
  intros H. apply andb_true_iff in H. destruct H as [Hc Hs].
  rewrite Hc. auto.
Qed.

Lemma lstrip_nil_blank s : lstrip s = [] -> forallb isspace s = true.
Proof.
  induction s as [|c s IH]; simpl; [reflexivity|].
  destruct (isspace c); [auto | discriminate].
Qed.

(** What [lstrip] leaves is a suffix of blanks-removed text: either
    nothing, or something that starts with a non-blank. *)
Lemma lstrip_blank_result s : forallb isspace (lstrip s) = true -> lstrip s = [].
Proof.
  induction s as [|c s IH]; simpl; [reflexivity|].
  destruct (isspace c) eqn:E; [exact IH|].
  simpl. rewrite E. discriminate.
Qed.

Lemma forallb_rev (f : codepoint -> bool) s : forallb f (rev s) = forallb f s.
Proof.
  induction s as [|c s IH]; simpl; [reflexivity|].
  rewrite forallb_app. simpl. rewrite IH, andb_true_r. apply andb_comm.
Qed.

(** [strip] gives the empty string exactly on blank strings. *)
Lemma strip_nil_iff s : strip s = [] <-> forallb isspace s = true.
Proof.
  unfold strip, rstrip. split.
  - intros H.
    assert (Hl : lstrip (rev (lstrip s)) = []).
    { apply (f_equal (@rev codepoint)) in H. rewrite rev_involutive in H. exact H. }
    apply lstrip_nil_blank in Hl. rewrite forallb_rev in Hl.
    apply lstrip_nil_blank. apply lstrip_blank_result. exact Hl.
  - intros H. rewrite (lstrip_blank s H). reflexivity.
Qed.

Lemma blank_not_slash c : isspace c = true -> N.eqb 47 c = false.
Proof.
  intros H. destruct (N.eqb_spec 47 c) as [E|E]; [|reflexivity].
  subst c. discriminate H.
Qed.

(** A blank string holds no trigger token. *)
Lemma blank_no_trigger s :
  forallb isspace s = true -> contains ActionGenerateImage.trigger s = false.
Proof.
  induction s as [|c s IH]; intros H; [reflexivity|].
  simpl in H. apply andb_true_iff in H. destruct H as [Hc Hs].
  cbn [contains]. rewrite (IH Hs), orb_false_r.
  change ActionGenerateImage.trigger with (47%N :: lit "imagine").
  cbn [startswith]. rewrite (blank_not_slash c Hc). reflexivity.
Qed.

Lemma trigger_cons : ActionGenerateImage.trigger = 47%N :: lit "imagine".
Proof. reflexivity. Qed.

(** The prompt of a message that starts with the token and holds no
    other occurrence of it. *)
Lemma prompt_of_leading rest :
  contains ActionGenerateImage.trigger rest = false ->
  ActionGenerateImage.prompt_of (ActionGenerateImage.trigger ++ rest) = strip rest.
Proof.
  intros H. unfold ActionGenerateImage.prompt_of.
  rewrite trigger_cons in *. rewrite replace_leading, replace_absent by exact H.
  reflexivity.
Qed.

Lemma prompt_of_absent s :
  contains ActionGenerateImage.trigger s = false ->
  ActionGenerateImage.prompt_of s = strip s.
Proof.
  intros H. unfold ActionGenerateImage.prompt_of.
  rewrite trigger_cons in *. rewrite replace_absent by exact H. reflexivity.
Qed.

End StringFacts.


(* ===================================================================== *)
(** ** The model on small inputs *)
(* ===================================================================== *)

Example strip_both_ends : strip (lit "  a red bicycle ") = lit "a red bicycle".
Proof. reflexivity. Qed.

Example strip_no_break_space : strip [160%N; 97%N; 8232%N] = [97%N].
Proof. reflexivity. Qed.

Example replace_every_occurrence :
  replace (lit "ab") (lit "-") (lit "abcabab") = lit "-c--".
Proof. reflexivity. Qed.

Example replace_does_not_overlap :
  replace (lit "aa") (lit "b") (lit "aaa") = lit "ba".
Proof. reflexivity. Qed.

Example replace_is_one_pass :
  ActionGenerateImage.prompt_of (lit "/imag/imagineine") = lit "/imagine".
Proof. reflexivity. Qed.

Example subscript_str : Py.getitem_index (PStr (lit "abc")) 0 = Ok (PStr (lit "a")).
Proof. reflexivity. Qed.

Example subscript_last : Py.getitem_index (PList [PInt 1; PInt 2]) (-1) = Ok (PInt 2).
Proof. reflexivity. Qed.

Example subscript_empty_list : Py.getitem_index (PList []) 0 = Raise IndexError.
Proof. reflexivity. Qed.

Example subscript_missing_key :
  Py.getitem_key (PDict [(lit "error", PNone)]) (lit "candidates") = Raise KeyError.
Proof. reflexivity. Qed.

Example text_of_well_formed :
  ActionFinancialAdvice.text_of (Sample.gemini_body (PStr (lit "Save more.")))
    = Ok (PStr (lit "Save more.")).
Proof. reflexivity. Qed.

Example text_of_no_candidates :
  ActionFinancialAdvice.text_of (PDict [(lit "candidates", PList [])])
    = Raise IndexError.
Proof. reflexivity. Qed.

Example b64_three_bytes : DataURI.b64decode (lit "TWFu") = Some [77%N; 97%N; 110%N].
Proof. reflexivity. Qed.

Example b64_two_bytes : DataURI.b64decode (lit "TWE=") = Some [77%N; 97%N].
Proof. reflexivity. Qed.

Example b64_one_byte : DataURI.b64decode (lit "TQ==") = Some [77%N].
Proof. reflexivity. Qed.

Example b64_rejects_short_group : DataURI.b64decode (lit "TWF") = None.
Proof. reflexivity. Qed.

Example advice_happy_path :
  invoke FinancialAdvice Sample.cfg
    (Sample.world (Sample.answer 200 (Sample.gemini_body (PStr (lit "Save more."))))
       (Ok tt))
    (Sample.says "How do I save?")
  = ended [{| text := PStr (lit "Save more."); image := None |}] []
          [RequestsPost (ActionFinancialAdvice.request Sample.cfg
                           (lit "How do I save?"))].
Proof. reflexivity. Qed.

Example image_down_scenario :
  emitted GenerateImage Sample.cfg Sample.unreachable
    (Sample.says "/imagine a red bicycle")
  = [plain ActionGenerateImage.fallback].
Proof. reflexivity. Qed.

Example suggestion_happy_path :
  trace SubmitSuggestion Sample.cfg Sample.unreachable (Sample.says "More FAQs")
  = [SMTPOpen (lit "smtp.gmail.com") 587 None; SMTPStarttls;
     SMTPLogin (Some (lit "bot@example.com")) (Some (lit "secret"));
     SMTPSendmail (Some (lit "bot@example.com")) TO_EMAIL (lit "MIME");
     SMTPQuit].
Proof. reflexivity. Qed.

(* ===================================================================== *)
(** ** How each action runs *)
(* ===================================================================== *)

Ltac unfold_run :=
  cbv [returned emitted trace invoke run ended
       ActionFinancialAdvice.run ActionGenerateImage.run
       ActionGetFAQ.run ActionSubmitSuggestion.run
       try_except bind requests_post SMTP server_starttls server_login
       server_sendmail server_quit record_call lift raise_for_status
       response_json utter_message print ret raise st0 Py.str_of
       messages printed calls app fst snd];
  repeat match goal with
         | |- context [format_value ?w (get_text ?t)] =>
             change (format_value w (get_text t)) with (message_text w t)
         end.

Ltac reduce := cbv beta iota zeta.

(** Use a known outcome of the step the run is at. *)
Ltac given H := rewrite H; reduce.

(** Case analysis on the next thing the run looks at. *)
Ltac next_case :=
  match goal with
  | |- context [match ?x with _ => _ end] =>
      lazymatch x with
      | context [match _ with _ => _ end] => fail
      | _ => destruct x eqn:?
      end
  end;
  reduce.

Ltac all_cases := unfold_run; repeat next_case.

Lemma status_passes_true r :
  status_passes r = true ->
  (400 <=? status_code r)%Z && (status_code r <? 600)%Z = false.
Proof. unfold status_passes. apply negb_true_iff. Qed.

Lemma status_passes_false r :
  status_passes r = false ->
  (400 <=? status_code r)%Z && (status_code r <? 600)%Z = true.
Proof. unfold status_passes. apply negb_false_iff. Qed.

Lemma status_passes_range r :
  status_passes r = false <-> (400 <= status_code r < 600)%Z.
Proof.
  unfold status_passes.
  destruct (Z.leb_spec 400 (status_code r)), (Z.ltb_spec (status_code r) 600);
    simpl; split; intros; try lia; congruence.
Qed.

Lemma truthy_str_iff (s : pystr) : Py.truthy_str s = true <-> s <> [].
Proof. destruct s; simpl; split; congruence. Qed.

Lemma truthy_opt_some (k : pystr) : k <> [] -> Py.truthy_opt (Some k) = true.
Proof. destruct k; simpl; congruence. Qed.

(** A run returns, and returns no event; for the image action, when the
    text of the message is a [str]. *)
Lemma returns_nil a cfg w t :
  (a = GenerateImage -> exists s, get_text t = PStr s) ->
  returned a cfg w t = Ok [].
Proof.
  destruct a; intros H.
  2:{ destruct (H eq_refl) as [s Hs]. unfold_run. given Hs.
      repeat next_case; reflexivity. }
  all: all_cases; reflexivity.
Qed.

(** Whatever a run returns is the empty list. *)
Lemma returns_nil_if_returns a cfg w t evs :
  returned a cfg w t = Ok evs -> evs = [].
Proof.
  destruct a; all_cases; intros H;
    first [ injection H as <-; reflexivity | discriminate H ].
Qed.

(** A run raises in one case only: the image action, on a text that is
    not a [str]; it has then made no call and sent no message. *)
Lemma raises_only_on_text a cfg w t e :
  returned a cfg w t = Raise e ->
  a = GenerateImage /\ e = AttributeError /\
  (forall s, get_text t <> PStr s) /\
  invoke a cfg w t = (Raise AttributeError, st0).
Proof.
  destruct a; all_cases; intros H; try discriminate H;
    injection H as <-;
    (split; [reflexivity|]; split; [reflexivity|];
     split; [intros s; discriminate | reflexivity]).
Qed.

(** No call is given a timeout. *)
Lemma trace_unbounded a cfg w t c :
  In c (trace a cfg w t) -> forall z, call_timeout c <> Some (Some z).
Proof.
  destruct a; all_cases; cbn [In]; intros H bound;
    repeat (destruct H as [H|H]; [subst c; discriminate|]);
    try contradiction.
Qed.

Section FinancialAdvice.

Variables (cfg : Config) (w : World) (t : Tracker).

Let req := ActionFinancialAdvice.request cfg (message_text w t).
Let prefix := lit "Error in financial advice: ".
Let failed (e : exn) :=
  ended [plain ActionFinancialAdvice.fallback] [(prefix, e)] [RequestsPost req].

Lemma advice_post_raises e :
  post w req = Raise e -> invoke FinancialAdvice cfg w t = failed e.
Proof. intros H. unfold_run. fold req. given H. reflexivity. Qed.

Lemma advice_bad_status r :
  post w req = Ok r -> status_passes r = false ->
  invoke FinancialAdvice cfg w t = failed (HTTPError (status_code r)).
Proof.
  intros H Hs. apply status_passes_false in Hs.
  unfold_run. fold req. given H. given Hs. reflexivity.
Qed.

Lemma advice_not_json r :
  post w req = Ok r -> status_passes r = true -> body r = None ->
  invoke FinancialAdvice cfg w t = failed JSONDecodeError.
Proof.
  intros H Hs Hb. apply status_passes_true in Hs.
  unfold_run. fold req. given H. given Hs. given Hb. reflexivity.
Qed.

Lemma advice_bad_shape r g e :
  post w req = Ok r -> status_passes r = true -> body r = Some g ->
  ActionFinancialAdvice.text_of g = Raise e ->
  invoke FinancialAdvice cfg w t = failed e.
Proof.
  intros H Hs Hb Ht. apply status_passes_true in Hs.
  unfold_run. fold req. given H. given Hs. given Hb. given Ht. reflexivity.
Qed.

Lemma advice_success r g v :
  post w req = Ok r -> status_passes r = true -> body r = Some g ->
  ActionFinancialAdvice.text_of g = Ok v ->
  invoke FinancialAdvice cfg w t =
    ended [{| text := v; image := None |}] [] [RequestsPost req].
Proof.
  intros H Hs Hb Ht. apply status_passes_true in Hs.
  unfold_run. fold req. given H. given Hs. given Hb. given Ht. reflexivity.
Qed.

(** Whatever the endpoint does, the run ends in one of two ways. *)
Lemma advice_outcomes :
  (exists e, invoke FinancialAdvice cfg w t = failed e) \/
  (exists r g v,
      post w req = Ok r /\ status_passes r = true /\ body r = Some g /\
      ActionFinancialAdvice.text_of g = Ok v /\
      invoke FinancialAdvice cfg w t =
        ended [{| text := v; image := None |}] [] [RequestsPost req]).
Proof.
  destruct (post w req) as [r|e] eqn:Hp.
  2:{ left. exists e. apply advice_post_raises. exact Hp. }
  destruct (status_passes r) eqn:Hs.
  2:{ left. eexists. apply advice_bad_status; eassumption. }
  destruct (body r) as [g|] eqn:Hb.
  2:{ left. eexists. eapply advice_not_json; eassumption. }
  destruct (ActionFinancialAdvice.text_of g) as [v|e] eqn:Ht.
  2:{ left. eexists. eapply advice_bad_shape; eassumption. }
  right. exists r, g, v. repeat split; try assumption.
  eapply advice_success; eassumption.
Qed.

End FinancialAdvice.

Section GenerateImage.

Variables (cfg : Config) (w : World) (t : Tracker).

(** A text that is not a [str] has no [replace]: the run raises before
    its [try], having sent nothing and called nothing. *)
Lemma image_text_not_str :
  (forall s, get_text t <> PStr s) ->
  invoke GenerateImage cfg w t = (Raise AttributeError, st0).
Proof.
  intros H. unfold_run.
  destruct (get_text t) as [| | | |s| |] eqn:E; try reflexivity.
  destruct (H s). reflexivity.
Qed.

Variable s : pystr.
Hypothesis text_is_str : get_text t = PStr s.

Let prompt := ActionGenerateImage.prompt_of s.
Let prefix := lit "Error generating image: ".
Let no_key := ValueError (lit "IMAGE_API_KEY not found in environment variables.").

Lemma image_usage :
  prompt = [] ->
  invoke GenerateImage cfg w t = ended [plain ActionGenerateImage.usage] [] [].
Proof.
  intros H. unfold_run. given text_is_str. fold prompt. rewrite H. reflexivity.
Qed.

Lemma image_no_key :
  prompt <> [] -> Py.truthy_opt (IMAGE_API_KEY cfg) = false ->
  invoke GenerateImage cfg w t =
    ended [plain ActionGenerateImage.fallback] [(prefix, no_key)] [].
Proof.
  intros Hp Hk. apply truthy_str_iff in Hp.
  unfold_run. given text_is_str. fold prompt. rewrite Hp, Hk. reflexivity.
Qed.

Variable k : pystr.
Hypothesis prompt_given : prompt <> [].
Hypothesis key_set : IMAGE_API_KEY cfg = Some k.
Hypothesis key_given : k <> [].

Let req := ActionGenerateImage.request k prompt.
Let failed (e : exn) :=
  ended [plain ActionGenerateImage.fallback] [(prefix, e)] [RequestsPost req].

Ltac enter :=
  unfold_run; rewrite text_is_str; reduce; fold prompt;
  rewrite (proj2 (truthy_str_iff prompt) prompt_given), key_set,
    (truthy_opt_some key_given);
  cbv [negb Py.format_opt]; reduce; fold req.

Lemma image_post_raises e :
  post w req = Raise e -> invoke GenerateImage cfg w t = failed e.
Proof. intros H. enter. given H. reflexivity. Qed.

Lemma image_bad_status r :
  post w req = Ok r -> status_passes r = false ->
  invoke GenerateImage cfg w t = failed (HTTPError (status_code r)).
Proof.
  intros H Hs. apply status_passes_false in Hs.
  enter. given H. given Hs. reflexivity.
Qed.

Lemma image_not_json r :
  post w req = Ok r -> status_passes r = true -> body r = None ->
  invoke GenerateImage cfg w t = failed JSONDecodeError.
Proof.
  intros H Hs Hb. apply status_passes_true in Hs.
  enter. given H. given Hs. given Hb. reflexivity.
Qed.

Lemma image_bad_shape r g e :
  post w req = Ok r -> status_passes r = true -> body r = Some g ->
  ActionGenerateImage.base64_of g = Raise e ->
  invoke GenerateImage cfg w t = failed e.
Proof.
  intros H Hs Hb Ht. apply status_passes_true in Hs.
  enter. given H. given Hs. given Hb. given Ht. reflexivity.
Qed.

Lemma image_success r g v :
  post w req = Ok r -> status_passes r = true -> body r = Some g ->
  ActionGenerateImage.base64_of g = Ok v ->
  invoke GenerateImage cfg w t =
    ended [{| text := PStr ActionGenerateImage.caption;
              image := Some (ActionGenerateImage.data_uri (format_value w v)) |}]
          [] [RequestsPost req].
Proof.
  intros H Hs Hb Ht. apply status_passes_true in Hs.
  enter. given H. given Hs. given Hb. given Ht. reflexivity.
Qed.

End GenerateImage.

Section SubmitSuggestion.

Variables (cfg : Config) (w : World) (t : Tracker).

Let host := lit "smtp.gmail.com".
Let prefix := lit "Error sending suggestion email: ".
Let html := ActionSubmitSuggestion.body (message_text w t).

(** When every step goes well the session is opened and closed once. *)
Lemma submit_all_ok text :
  mime_text w html (lit "html") = Ok tt ->
  smtp_connect w host 587 = Ok tt ->
  smtp_starttls w = Ok tt ->
  smtp_login w (EMAIL_ADDRESS cfg) (EMAIL_PASSWORD cfg) = Ok tt ->
  mime_as_string w (ActionSubmitSuggestion.envelope cfg (message_text w t)) = Ok text ->
  smtp_sendmail w (EMAIL_ADDRESS cfg) TO_EMAIL text = Ok tt ->
  smtp_quit w = Ok tt ->
  invoke SubmitSuggestion cfg w t =
    ended [plain ActionSubmitSuggestion.confirmation] []
          [SMTPOpen host 587 None; SMTPStarttls;
           SMTPLogin (EMAIL_ADDRESS cfg) (EMAIL_PASSWORD cfg);
           SMTPSendmail (EMAIL_ADDRESS cfg) TO_EMAIL text; SMTPQuit].
Proof.
  intros H1 H2 H3 H4 H5 H6 H7. unfold_run. fold html host.
  given H1. given H2. given H3. given H4. given H5. given H6. given H7.
  reflexivity.
Qed.

(** When the login is refused the run stops there: the handler sends the
    fallback, and [quit] is not among the calls made. *)
Lemma submit_login_fails e :
  mime_text w html (lit "html") = Ok tt ->
  smtp_connect w host 587 = Ok tt ->
  smtp_starttls w = Ok tt ->
  smtp_login w (EMAIL_ADDRESS cfg) (EMAIL_PASSWORD cfg) = Raise e ->
  invoke SubmitSuggestion cfg w t =
    ended [plain ActionSubmitSuggestion.fallback] [(prefix, e)]
          [SMTPOpen host 587 None; SMTPStarttls;
           SMTPLogin (EMAIL_ADDRESS cfg) (EMAIL_PASSWORD cfg)].
Proof.
  intros H1 H2 H3 H4. unfold_run. fold html host.
  given H1. given H2. given H3. given H4. reflexivity.
Qed.

(** A call on the relay that raises sends the run to the handler. *)
Lemma submit_session_fails e :
  session_failure cfg w (message_text w t) = Some e ->
  emitted SubmitSuggestion cfg w t = [plain ActionSubmitSuggestion.fallback].
Proof.
  unfold session_failure. all_cases; intros H;
    first [reflexivity | discriminate H].
Qed.

End SubmitSuggestion.

(** The three actions that send fixed texts only; for the image action,
    when the text of the message is a [str]. *)
Lemma fixed_text_actions a cfg w t :
  (a = GenerateImage -> exists s, get_text t = PStr s) ->
  a <> FinancialAdvice ->
  exists m, emitted a cfg w t = [m] /\ nonempty_text m = true.
Proof.
  intros Hstr Ha. destruct a; [congruence| | |].
  - destruct (Hstr eq_refl) as [s Hs]. unfold_run. given Hs.
    repeat next_case; eexists; split; reflexivity.
  - all_cases; eexists; split; reflexivity.
  - all_cases; eexists; split; reflexivity.
Qed.

(** The data URI the image action builds reads back to its base64 text. *)
Lemma data_uri_payload s :
  DataURI.payload (ActionGenerateImage.data_uri s) = Some s.
Proof. reflexivity. Qed.

Lemma advice_trace cfg w t :
  trace FinancialAdvice cfg w t =
    [RequestsPost (ActionFinancialAdvice.request cfg (message_text w t))].
Proof.
  unfold trace.
  destruct (advice_outcomes cfg w t) as [[e H]|(r & g & v & _ & _ & _ & _ & H)];
    rewrite H; reflexivity.
Qed.

(** The image action calls the endpoint at most once, with the prompt it
    parsed. *)
Lemma image_trace cfg w t s c :
  get_text t = PStr s ->
  In c (trace GenerateImage cfg w t) ->
  exists k,
    c = RequestsPost (ActionGenerateImage.request k
                        (ActionGenerateImage.prompt_of s)).
Proof.
  intros Hs. unfold_run. given Hs. repeat next_case; cbn [In]; intros H;
    repeat (destruct H as [H|H]; [subst c; eexists; reflexivity|]);
    contradiction.
Qed.

Lemma strip_trigger_leading rest :
  Spec.strip_trigger (ActionGenerateImage.trigger ++ rest) = strip rest.
Proof.
  unfold Spec.strip_trigger.
  rewrite startswith_app, skipn_app_exact. reflexivity.
Qed.

(** An empty parse in the words of the specification is an empty prompt
    in the code. *)
Lemma strip_trigger_nil s :
  Spec.strip_trigger s = [] -> ActionGenerateImage.prompt_of s = [].
Proof.
  unfold Spec.strip_trigger.
  destruct (startswith ActionGenerateImage.trigger s) eqn:Hs; intros H.
  - apply startswith_split in Hs.
    set (rest := skipn (List.length ActionGenerateImage.trigger) s) in *.
    rewrite Hs. apply strip_nil_iff in H.
    rewrite prompt_of_leading by (apply blank_no_trigger; exact H).
    apply strip_nil_iff. exact H.
  - apply strip_nil_iff in H.
    rewrite prompt_of_absent by (apply blank_no_trigger; exact H).
    apply strip_nil_iff. exact H.
Qed.

(** Taking the tokens out of a message made of tokens and whitespace
    leaves whitespace. *)
Lemma tokens_and_blanks_replace s :
  tokens_and_blanks s ->
  forallb isspace (replace ActionGenerateImage.trigger [] s) = true.
Proof.
  induction 1 as [|c s Hc _ IH|s _ IH].
  - reflexivity.
  - rewrite trigger_cons in *. unfold replace in *. cbn [replace_from].
    cbn [startswith]. rewrite (blank_not_slash c Hc). cbn [andb].
    cbn [forallb]. rewrite Hc, IH. reflexivity.
  - rewrite trigger_cons in *. rewrite replace_leading. exact IH.
Qed.

(** Where the scan has [skip] code points of a token still to pass and
    what it leaves is whitespace, the text after those code points is
    made of tokens and whitespace. *)
Lemma blank_replace_from_inv : forall s skip,
  skip <= List.length s ->
  forallb isspace (replace_from ActionGenerateImage.trigger [] s skip) = true ->
  tokens_and_blanks (skipn skip s).
Proof.
  induction s as [|c s IH]; intros skip Hlen H.
  - destruct skip; [apply tb_end | cbn in Hlen; lia].
  - destruct skip as [|k].
    + cbn [skipn]. cbn [replace_from] in H.
      destruct (startswith ActionGenerateImage.trigger (c :: s)) eqn:Hst.
      * pose proof (startswith_split _ _ Hst) as Hsplit.
        change (skipn (List.length ActionGenerateImage.trigger) (c :: s))
          with (skipn 7 s) in Hsplit.
        change (List.length ActionGenerateImage.trigger - 1) with 7 in H.
        cbn [app] in H.
        assert (Hl : 7 <= List.length s).
        { apply (f_equal (@List.length codepoint)) in Hsplit.
          rewrite length_app in Hsplit.
          change (List.length ActionGenerateImage.trigger) with 8 in Hsplit.
          cbn [List.length] in Hsplit. lia. }
        rewrite Hsplit. apply tb_token. apply IH; assumption.
      * cbn [forallb] in H. apply andb_true_iff in H. destruct H as [Hc Hr].
        apply tb_blank; [exact Hc|].
        change s with (skipn 0 s). apply IH; [lia | exact Hr].
    + cbn [skipn]. cbn [replace_from] in H.
      apply IH; [cbn [List.length] in Hlen; lia | exact H].
Qed.

(** The prompt the code parses is empty exactly on the messages made of
    trigger tokens and whitespace. *)
Lemma prompt_of_nil_iff s :
  ActionGenerateImage.prompt_of s = [] <-> tokens_and_blanks s.
Proof.
  unfold ActionGenerateImage.prompt_of. rewrite strip_nil_iff. split.
  - intros H. change s with (skipn 0 s).
    apply blank_replace_from_inv; [lia|]. exact H.
  - apply tokens_and_blanks_replace.
Qed.

Example token_after_blank_leaves_nothing :
  ActionGenerateImage.prompt_of (lit " /imagine ") = [] /\
  Spec.strip_trigger (lit " /imagine ") = lit "/imagine".
Proof. split; reflexivity. Qed.

Example two_tokens_leave_nothing :
  ActionGenerateImage.prompt_of (lit "/imagine/imagine") = [] /\
  Spec.strip_trigger (lit "/imagine/imagine") = lit "/imagine".
Proof. split; reflexivity. Qed.

(** The subscripts of the image answer on an answer of the documented
    shape. *)
Lemma base64_of_intro d a rest v :
  Py.dict_get d (lit "artifacts") = Some (PList (PDict a :: rest)) ->
  Py.dict_get a (lit "base64") = Some v ->
  ActionGenerateImage.base64_of (PDict d) = Ok v.
Proof.
  intros Hd Ha. unfold ActionGenerateImage.base64_of.
  cbn [Py.getitem_key and_then]. rewrite Hd. cbn [and_then].
  change (Py.getitem_index (PList (PDict a :: rest)) 0) with (Ok (PDict a)).
  cbn [and_then Py.getitem_key]. rewrite Ha. reflexivity.
Qed.

(* ===================================================================== *)
(** ** The properties of the specification *)
(* ===================================================================== *)

(** C1, as stated, fails: when the text service answers 200 with a
    well-formed body whose text is the empty string, the one message the
    financial-advice action emits carries that empty text, so no emitted
    message has a non-empty text. *)
Lemma empty_reply_is_forwarded :
  ~ exists m,
      In m (emitted FinancialAdvice Sample.cfg Sample.empty_reply
              (Sample.says "How do I save?")) /\
      nonempty_text m = true.
Proof.
  intros [m [Hin Hne]]. vm_compute in Hin.
  destruct Hin as [<-|[]]. discriminate Hne.
Qed.

(** C1, amended: for every action and every snapshot (for the image
    action: every snapshot whose message text is a string, the entry
    being absent counting as the empty string), [run] emits exactly one
    message.  Its text is a non-empty string in every case but one: when
    the text service answers with a status that passes and a body that
    has the text field, the financial-advice action emits that field as
    it is (it may be empty, or not a string), without an image. *)
Theorem one_message_per_run a cfg w t :
  (a = GenerateImage -> exists s, get_text t = PStr s) ->
  exists m,
    emitted a cfg w t = [m] /\
    (nonempty_text m = true \/
     a = FinancialAdvice /\
     exists r g,
       post w (ActionFinancialAdvice.request cfg (message_text w t)) = Ok r /\
       status_passes r = true /\ body r = Some g /\
       ActionFinancialAdvice.text_of g = Ok (text m) /\ image m = None).
Proof.
  intros Hstr. destruct a.
  - destruct (advice_outcomes cfg w t)
      as [[e H]|(r & g & v & Hp & Hs & Hb & Ht & H)].
    + exists (plain ActionFinancialAdvice.fallback). split.
      * unfold emitted. rewrite H. reflexivity.
      * left. reflexivity.
    + exists {| text := v; image := None |}. split.
      * unfold emitted. rewrite H. reflexivity.
      * right. split; [reflexivity|]. exists r, g. auto.
  - destruct (@fixed_text_actions GenerateImage cfg w t Hstr) as [m [H1 H2]];
      [discriminate|]. exists m. auto.
  - destruct (@fixed_text_actions GetFAQ cfg w t Hstr) as [m [H1 H2]];
      [discriminate|]. exists m. auto.
  - destruct (@fixed_text_actions SubmitSuggestion cfg w t Hstr) as [m [H1 H2]];
      [discriminate|]. exists m. auto.
Qed.

(** C1 at work: the image action, on a message that is a string, while
    the image service is down. *)
Lemma one_message_per_run_witness :
  exists m,
    emitted GenerateImage Sample.cfg Sample.unreachable
      (Sample.says "/imagine a red bicycle") = [m] /\
    (nonempty_text m = true \/
     GenerateImage = FinancialAdvice /\
     exists r g,
       post Sample.unreachable
         (ActionFinancialAdvice.request Sample.cfg
            (message_text Sample.unreachable (Sample.says "/imagine a red bicycle")))
         = Ok r /\
       status_passes r = true /\ body r = Some g /\
       ActionFinancialAdvice.text_of g = Ok (text m) /\ image m = None).
Proof.
  apply (@one_message_per_run GenerateImage Sample.cfg Sample.unreachable
           (Sample.says "/imagine a red bicycle")).
  intros _. eexists. reflexivity.
Defined.

(** C2, evaluated where it fails: the relay accepts the connection and
    STARTTLS and refuses the login.  The suggestion action has opened one
    connection and returns without having called [quit] on it; it returns
    [[]] and sends its fallback text. *)
Theorem refused_login_leaves_session_open :
  smtp_connect Sample.login_refused (lit "smtp.gmail.com") 587 = Ok tt /\
  count is_open (trace SubmitSuggestion Sample.cfg Sample.login_refused
                   (Sample.says "Offer tax planning")) = 1 /\
  count is_quit (trace SubmitSuggestion Sample.cfg Sample.login_refused
                   (Sample.says "Offer tax planning")) = 0 /\
  returned SubmitSuggestion Sample.cfg Sample.login_refused
    (Sample.says "Offer tax planning") = Ok [] /\
  emitted SubmitSuggestion Sample.cfg Sample.login_refused
    (Sample.says "Offer tax planning") = [plain ActionSubmitSuggestion.fallback].
Proof. repeat split; vm_compute; reflexivity. Qed.




(** C4, as stated, fails: the request of the financial-advice action is
    made without a timeout, so not every external call is bounded. *)
Lemma request_without_timeout :
  ~ forall c,
      In c (trace FinancialAdvice Sample.cfg Sample.unreachable (Sample.says "hi")) ->
      bounded c = true.
Proof.
  intros H.
  specialize (H (RequestsPost (ActionFinancialAdvice.request Sample.cfg
                                 (message_text Sample.unreachable (Sample.says "hi"))))).
  assert (Hin : In (RequestsPost (ActionFinancialAdvice.request Sample.cfg
                                    (message_text Sample.unreachable (Sample.says "hi"))))
                   (trace FinancialAdvice Sample.cfg Sample.unreachable
                      (Sample.says "hi"))).
  { rewrite advice_trace. left. reflexivity. }
  specialize (H Hin). discriminate H.
Qed.

(** C4, amended: no external call of any action is given a timeout (the
    HTTP requests and the SMTP connection are made with the libraries'
    default, which sets no bound); and when the external call of an action
    raises a timeout, the action emits its fixed fallback message, as for
    any other failed call. *)
Theorem no_timeout_set_and_timeout_falls_back a cfg w t :
  (forall c, In c (trace a cfg w t) -> forall z, call_timeout c <> Some (Some z)) /\
  (times_out a cfg w t -> emitted a cfg w t = [plain (fallback_of a)]).
Proof.
  split; [intros c Hc; exact (trace_unbounded a cfg w t c Hc)|].
  destruct a; cbn [times_out fallback_of].
  - intros H. unfold emitted. rewrite (advice_post_raises cfg w t H). reflexivity.
  - intros (s & k & Hs & Hk & Hne & Hp & Hpost). unfold emitted.
    rewrite (image_post_raises cfg w t Hs Hp Hk Hne Hpost). reflexivity.
  - contradiction.
  - intros [_ H]. apply (submit_session_fails cfg w t H).
Qed.

(** C4 at work: the connection to the relay times out. *)
Lemma no_timeout_set_and_timeout_falls_back_witness :
  times_out SubmitSuggestion Sample.cfg Sample.world_relay_timeout (Sample.says "hi") /\
  emitted SubmitSuggestion Sample.cfg Sample.world_relay_timeout (Sample.says "hi")
    = [plain ActionSubmitSuggestion.fallback].
Proof.
  assert (H : times_out SubmitSuggestion Sample.cfg Sample.world_relay_timeout
                (Sample.says "hi")) by (split; reflexivity).
  split; [exact H|].
  exact (proj2 (no_timeout_set_and_timeout_falls_back
                  SubmitSuggestion Sample.cfg Sample.world_relay_timeout
                  (Sample.says "hi")) H).
Defined.

(** C5, as stated, fails: the code removes every occurrence of the
    trigger token, not only the leading one.  For the message
    [/imagine a /imagine b] the prompt sent to the service is [a  b],
    while the message without its leading token, trimmed, is
    [a /imagine b]. *)
Lemma repeated_token_is_removed :
  startswith ActionGenerateImage.trigger (lit "/imagine a /imagine b") = true /\
  trace GenerateImage Sample.cfg Sample.unreachable
    (Sample.says "/imagine a /imagine b")
    = [RequestsPost (ActionGenerateImage.request (lit "i-key") (lit "a  b"))] /\
  Spec.strip_trigger (lit "/imagine a /imagine b") = lit "a /imagine b" /\
  lit "a  b" <> Spec.strip_trigger (lit "/imagine a /imagine b").
Proof.
  repeat split; try (vm_compute; reflexivity).
  vm_compute. discriminate.
Qed.

(** C5, amended: for every user message that begins with the trigger
    token [/imagine] and holds no other occurrence of it, the prompt the
    image action parses, and sends in every request it makes, equals the
    message with the leading token taken off and the surrounding
    whitespace trimmed. *)
Theorem single_leading_token_prompt cfg w t rest :
  get_text t = PStr (ActionGenerateImage.trigger ++ rest) ->
  contains ActionGenerateImage.trigger rest = false ->
  ActionGenerateImage.prompt_of (ActionGenerateImage.trigger ++ rest)
    = Spec.strip_trigger (ActionGenerateImage.trigger ++ rest) /\
  forall c, In c (trace GenerateImage cfg w t) ->
    exists k,
      c = RequestsPost (ActionGenerateImage.request k
                          (Spec.strip_trigger (ActionGenerateImage.trigger ++ rest))).
Proof.
  intros Hm Hr.
  assert (E : ActionGenerateImage.prompt_of (ActionGenerateImage.trigger ++ rest)
              = Spec.strip_trigger (ActionGenerateImage.trigger ++ rest)).
  { rewrite strip_trigger_leading. apply prompt_of_leading. exact Hr. }
  split; [exact E|].
  intros c Hc. rewrite <- E.
  exact (image_trace cfg w t c Hm Hc).
Qed.

(** C5 at work: one leading token, blanks around the prompt. *)
Lemma single_leading_token_prompt_witness :
  ActionGenerateImage.prompt_of (lit "/imagine  a red bicycle ")
    = lit "a red bicycle" /\
  forall c,
    In c (trace GenerateImage Sample.cfg Sample.unreachable
            (Sample.says "/imagine  a red bicycle ")) ->
    exists k,
      c = RequestsPost (ActionGenerateImage.request k
            (Spec.strip_trigger (lit "/imagine  a red bicycle "))).
Proof.
  destruct (@single_leading_token_prompt Sample.cfg Sample.unreachable
              (Sample.says "/imagine  a red bicycle ") (lit "  a red bicycle ")
              eq_refl eq_refl) as [H1 H2].
  split; [|exact H2].
  etransitivity; [exact H1 | reflexivity].
Defined.

(** C6: for every input whose content after removing the trigger token is
    empty (such as [/imagine ] followed only by whitespace), the image
    action makes no external call and emits the usage-instruction
    message.  The content is empty in each of these readings: the message
    is made of trigger tokens and whitespace only; the prompt the code
    parses (every token taken out, then trimmed) is empty; the message
    with its leading token taken off, trimmed, is empty. *)
Theorem blank_prompt_short_circuits cfg w t s :
  get_text t = PStr s ->
  tokens_and_blanks s \/
  ActionGenerateImage.prompt_of s = [] \/
  Spec.strip_trigger s = [] ->
  trace GenerateImage cfg w t = [] /\
  emitted GenerateImage cfg w t = [plain ActionGenerateImage.usage].
Proof.
  intros Hs H.
  assert (Hp : ActionGenerateImage.prompt_of s = []).
  { destruct H as [H|[H|H]].
    - apply prompt_of_nil_iff. exact H.
    - exact H.
    - apply strip_trigger_nil. exact H. }
  unfold trace, emitted. rewrite (image_usage cfg w t Hs Hp). split; reflexivity.
Qed.

(** C6 at work: a blank, the token, a blank. *)
Lemma blank_prompt_short_circuits_witness :
  trace GenerateImage Sample.cfg Sample.image_reply (Sample.says " /imagine ") = [] /\
  emitted GenerateImage Sample.cfg Sample.image_reply (Sample.says " /imagine ")
    = [plain ActionGenerateImage.usage].
Proof.
  apply (@blank_prompt_short_circuits Sample.cfg Sample.image_reply
           (Sample.says " /imagine ") (lit " /imagine ") eq_refl).
  left.
  change (tokens_and_blanks (32%N :: ActionGenerateImage.trigger ++ [32%N])).
  apply tb_blank; [reflexivity|].
  apply (@tb_token [32%N]).
  apply tb_blank; [reflexivity|]. apply tb_end.
Defined.

(** C7, as stated, fails: with the credential missing and a message that
    holds the trigger token and nothing else, the prompt check comes
    first, and the image action emits the usage-instruction message, not
    the fallback. *)
Lemma blank_prompt_precedes_key_check :
  Py.truthy_opt (IMAGE_API_KEY Sample.cfg_no_image_key) = false /\
  emitted GenerateImage Sample.cfg_no_image_key Sample.image_reply
    (Sample.says "/imagine ") = [plain ActionGenerateImage.usage] /\
  emitted GenerateImage Sample.cfg_no_image_key Sample.image_reply
    (Sample.says "/imagine ") <> [plain ActionGenerateImage.fallback].
Proof.
  repeat split; try (vm_compute; reflexivity).
  vm_compute. discriminate.
Qed.

(** C7, amended: when the image API credential is missing ([IMAGE_API_KEY]
    unset, or set to the empty string) and the message holds a non-empty
    prompt, the image action finds this out before any request: it makes
    no external call, raises the configuration error into its own
    handler, emits the fixed image fallback message and returns
    normally. *)
Theorem missing_image_key_falls_back cfg w t s :
  get_text t = PStr s ->
  Py.truthy_opt (IMAGE_API_KEY cfg) = false ->
  ActionGenerateImage.prompt_of s <> [] ->
  trace GenerateImage cfg w t = [] /\
  emitted GenerateImage cfg w t = [plain ActionGenerateImage.fallback] /\
  returned GenerateImage cfg w t = Ok [] /\
  printed (snd (invoke GenerateImage cfg w t)) =
    [(lit "Error generating image: ",
      ValueError (lit "IMAGE_API_KEY not found in environment variables."))].
Proof.
  intros Hs Hk Hp. unfold trace, emitted, returned.
  rewrite (image_no_key cfg w t Hs Hp Hk). repeat split; reflexivity.
Qed.

(** C7 at work: a prompt is given and the key is not set. *)
Lemma missing_image_key_falls_back_witness :
  trace GenerateImage Sample.cfg_no_image_key Sample.image_reply
    (Sample.says "/imagine a red bicycle") = [] /\
  emitted GenerateImage Sample.cfg_no_image_key Sample.image_reply
    (Sample.says "/imagine a red bicycle") = [plain ActionGenerateImage.fallback].
Proof.
  destruct (@missing_image_key_falls_back Sample.cfg_no_image_key
              Sample.image_reply (Sample.says "/imagine a red bicycle")
              (lit "/imagine a red bicycle") eq_refl)
    as (H1 & H2 & _).
  - reflexivity.
  - vm_compute. discriminate.
  - split; assumption.
Defined.

(** C8: for every successful answer of the image service whose
    [artifacts[0].base64] field holds a base64 string (the body is a JSON
    object whose [artifacts] is a list that starts with an object whose
    [base64] is that string), the image payload of the emitted message is
    a data URI that decodes back to exactly the bytes that string
    encodes. *)
Theorem image_payload_round_trip cfg w t s k r d a rest b64 bytes :
  get_text t = PStr s ->
  ActionGenerateImage.prompt_of s <> [] ->
  IMAGE_API_KEY cfg = Some k -> k <> [] ->
  post w (ActionGenerateImage.request k (ActionGenerateImage.prompt_of s)) = Ok r ->
  status_passes r = true ->
  body r = Some (PDict d) ->
  Py.dict_get d (lit "artifacts") = Some (PList (PDict a :: rest)) ->
  Py.dict_get a (lit "base64") = Some (PStr b64) ->
  DataURI.b64decode b64 = Some bytes ->
  exists uri,
    emitted GenerateImage cfg w t =
      [{| text := PStr ActionGenerateImage.caption; image := Some uri |}] /\
    DataURI.decode uri = Some bytes.
Proof.
  intros Ht Hp Hk Hne Hpost Hs Hb Hd Ha Hbytes.
  pose proof (base64_of_intro d Hd Ha) as Hfield.
  exists (ActionGenerateImage.data_uri b64). split.
  - unfold emitted.
    rewrite (image_success cfg w t Ht Hp Hk Hne Hpost Hs Hb Hfield). reflexivity.
  - unfold DataURI.decode. rewrite data_uri_payload. exact Hbytes.
Qed.

(** C8 at work: the service answers with the base64 text AAAA, which
    encodes three zero bytes. *)
Lemma image_payload_round_trip_witness :
  exists uri,
    emitted GenerateImage Sample.cfg Sample.image_reply
      (Sample.says "/imagine a red bicycle") =
      [{| text := PStr ActionGenerateImage.caption; image := Some uri |}] /\
    DataURI.decode uri = Some [0%N; 0%N; 0%N].
Proof.
  apply (@image_payload_round_trip Sample.cfg Sample.image_reply
           (Sample.says "/imagine a red bicycle") (lit "/imagine a red bicycle")
           (lit "i-key")
           {| status_code := 200;
              body := Some (Sample.image_body (PStr (lit "AAAA"))) |}
           [(lit "artifacts", PList [PDict [(lit "base64", PStr (lit "AAAA"))]])]
           [(lit "base64", PStr (lit "AAAA"))] [] (lit "AAAA")
           [0%N; 0%N; 0%N]);
    try reflexivity; vm_compute; discriminate.
Defined.



(** C10, evaluated where it fails: the snapshot of a turn without user
    text, whose text entry holds [None].  The image action looks up
    [replace] on it before its [try] and raises [AttributeError]: it
    returns no list, having sent no message and made no call, whatever
    the configuration and the world.  On the same snapshot the three
    other actions return the empty list. *)
Theorem image_run_raises_on_none_text cfg w :
  get_text More.none_text = PNone /\
  invoke GenerateImage cfg w More.none_text = (Raise AttributeError, st0) /\
  returned GenerateImage cfg w More.none_text <> Ok [] /\
  returned FinancialAdvice cfg w More.none_text = Ok [] /\
  returned GetFAQ cfg w More.none_text = Ok [] /\
  returned SubmitSuggestion cfg w More.none_text = Ok [].
Proof.
  split; [reflexivity|]. split; [reflexivity|]. split; [discriminate|].
  repeat split; apply returns_nil; discriminate.
Qed.

(* ===================================================================== *)
(** ** Further properties of the code *)
(* ===================================================================== *)

(** *** Subscripts *)

Lemma getitem_index_0_list l :
  Py.getitem_index (PList l) 0 =
    match l with [] => Raise IndexError | x :: _ => Ok x end.
Proof. destruct l; reflexivity. Qed.

Lemma getitem_index_0_str (s : pystr) :
  Py.getitem_index (PStr s) 0 =
    match s with [] => Raise IndexError | c :: _ => Ok (PStr [c]) end.
Proof. destruct s; reflexivity. Qed.

Lemma getitem_key_inv v k x :
  Py.getitem_key v k = Ok x ->
  exists d, v = PDict d /\ Py.dict_get d k = Some x.
Proof.
  destruct v; simpl; try discriminate.
  destruct (Py.dict_get items k) eqn:E; [|discriminate].
  intros H. injection H as <-. eauto.
Qed.

(** A subscript [[0]] whose result is then subscripted by a key: the
    value is a list with a first item (the first code point of a string
    is a string, which has no keys). *)
Lemma getitem_index_0_then_key v k x :
  Py.getitem_index v 0 >>= (fun b => Py.getitem_key b k) = Ok x ->
  exists d rest, v = PList (PDict d :: rest) /\ Py.dict_get d k = Some x.
Proof.
  destruct v; try discriminate.
  - rewrite getitem_index_0_str. destruct s; discriminate.
  - rewrite getitem_index_0_list. destruct items as [|b rest]; [discriminate|].
    cbn [and_then]. intros H.
    apply getitem_key_inv in H. destruct H as (d & -> & H). eauto.
Qed.

Lemma and_then_ok A B (r : result A) (k : A -> result B) y :
  r >>= k = Ok y -> exists x, r = Ok x /\ k x = Ok y.
Proof. destruct r; simpl; [eauto | discriminate]. Qed.

(** X2.  The text of an answer is found exactly when the answer is an
    object whose [candidates] is a list that starts with an object, whose
    [content] is an object, whose [parts] is a list that starts with an
    object, that has a [text]; the text found is that one.  Further
    candidates and parts play no role. *)
Theorem text_of_shape g v :
  ActionFinancialAdvice.text_of g = Ok v <->
  exists d c crest content p prest,
    g = PDict d /\
    Py.dict_get d (lit "candidates") = Some (PList (PDict c :: crest)) /\
    Py.dict_get c (lit "content") = Some (PDict content) /\
    Py.dict_get content (lit "parts") = Some (PList (PDict p :: prest)) /\
    Py.dict_get p (lit "text") = Some v.
Proof.
  unfold ActionFinancialAdvice.text_of. split.
  - intros H.
    apply and_then_ok in H. destruct H as (x1 & H1 & H).
    apply getitem_key_inv in H1. destruct H1 as (d & -> & Hd).
    apply and_then_ok in H. destruct H as (x2 & H2 & H).
    apply and_then_ok in H. destruct H as (x3 & H3 & H).
    assert (H23 : Py.getitem_index x1 0 >>=
                    (fun b => Py.getitem_key b (lit "content")) = Ok x3)
      by (rewrite H2; exact H3).
    apply getitem_index_0_then_key in H23. destruct H23 as (c & crest & -> & Hc).
    apply and_then_ok in H. destruct H as (x4 & H4 & H).
    apply getitem_key_inv in H4. destruct H4 as (content & -> & Hcontent).
    apply getitem_index_0_then_key in H. destruct H as (p & prest & -> & Hp).
    exists d, c, crest, content, p, prest. auto.
  - intros (d & c & crest & content & p & prest & -> & Hd & Hc & Hcontent & Hp).
    cbn [Py.getitem_key and_then]. rewrite Hd. cbn [and_then].
    rewrite getitem_index_0_list. cbn [and_then Py.getitem_key].
    rewrite Hc. cbn [and_then Py.getitem_key]. rewrite Hcontent.
    cbn [and_then]. rewrite getitem_index_0_list. cbn [and_then Py.getitem_key].
    rewrite Hp. reflexivity.
Qed.

(** X3.  The base64 field of an answer is found exactly when the answer
    is an object whose [artifacts] is a list that starts with an object
    that has a [base64]; further artifacts play no role. *)
Theorem base64_of_shape data v :
  ActionGenerateImage.base64_of data = Ok v <->
  exists d a rest,
    data = PDict d /\
    Py.dict_get d (lit "artifacts") = Some (PList (PDict a :: rest)) /\
    Py.dict_get a (lit "base64") = Some v.
Proof.
  unfold ActionGenerateImage.base64_of. split.
  - intros H.
    apply and_then_ok in H. destruct H as (x1 & H1 & H).
    apply getitem_key_inv in H1. destruct H1 as (d & -> & Hd).
    apply getitem_index_0_then_key in H. destruct H as (a & rest & -> & Ha).
    exists d, a, rest. auto.
  - intros (d & a & rest & -> & Hd & Ha).
    cbn [Py.getitem_key and_then]. rewrite Hd. cbn [and_then].
    rewrite getitem_index_0_list. cbn [and_then Py.getitem_key].
    rewrite Ha. reflexivity.
Qed.

(** *** Names *)

(** X1.  The four actions have four different names: a name picks out at
    most one action. *)
Theorem action_names_distinct a b : name a = name b -> a = b.
Proof.
  destruct a, b; intros H; try reflexivity; vm_compute in H; discriminate H.
Qed.

(** X1 at work. *)
Lemma action_names_distinct_witness : GetFAQ = GetFAQ.
Proof. apply action_names_distinct. reflexivity. Defined.

(** *** Calls *)

(** X4.  No action calls out more than once for the same thing: a run
    makes at most one HTTP request, opens at most one mail session, sends
    at most one mail and quits at most once.  The two generation actions
    never touch the mail relay, the suggestion action never makes an HTTP
    request, and the FAQ action makes no call at all. *)
Theorem call_budget a cfg w t :
  count is_post (trace a cfg w t) <= 1 /\
  count is_open (trace a cfg w t) <= 1 /\
  count is_sendmail (trace a cfg w t) <= 1 /\
  count is_quit (trace a cfg w t) <= 1 /\
  match a with
  | FinancialAdvice | GenerateImage => count is_smtp (trace a cfg w t) = 0
  | GetFAQ => trace a cfg w t = []
  | SubmitSuggestion => count is_post (trace a cfg w t) = 0
  end.
Proof.
  destruct a; all_cases; cbn; repeat split; lia.
Qed.

(** *** What [strip] leaves *)

Lemma lstrip_head s c r : lstrip s = c :: r -> isspace c = false.
Proof.
  induction s as [|d s IH]; simpl; [discriminate|].
  destruct (isspace d) eqn:E; [exact IH|].
  intros H. injection H as <- _. exact E.
Qed.

Lemma lstrip_suffix s : exists blanks, s = blanks ++ lstrip s.
Proof.
  induction s as [|d s [bl IH]]; simpl; [exists []; reflexivity|].
  destruct (isspace d).
  - exists (d :: bl). simpl. f_equal. exact IH.
  - exists []. reflexivity.
Qed.

Lemma strip_first s c r : strip s = c :: r -> isspace c = false.
Proof.
  unfold strip, rstrip. intros H.
  destruct (lstrip_suffix (rev (lstrip s))) as [bl Hbl].
  apply (f_equal (@rev codepoint)) in Hbl.
  rewrite rev_involutive, rev_app_distr, H in Hbl.
  simpl in Hbl. exact (lstrip_head s Hbl).
Qed.

Lemma strip_last s c r : strip s = r ++ [c] -> isspace c = false.
Proof.
  unfold strip, rstrip. intros H.
  apply (f_equal (@rev codepoint)) in H.
  rewrite rev_involutive, rev_app_distr in H. simpl in H.
  exact (lstrip_head _ H).
Qed.

Lemma nonempty_ends (p : pystr) :
  p <> [] -> (exists c r, p = c :: r) /\ (exists r c, p = r ++ [c]).
Proof.
  intros H. split.
  - destruct p as [|c r]; [congruence|]. eauto.
  - destruct (rev p) as [|c r] eqn:E.
    + apply (f_equal (@rev codepoint)) in E. rewrite rev_involutive in E.
      simpl in E. congruence.
    + apply (f_equal (@rev codepoint)) in E. rewrite rev_involutive in E.
      simpl in E. eauto.
Qed.

(** *** The image action *)

Lemma truthy_opt_inv (o : option pystr) :
  Py.truthy_opt o = true -> exists k, o = Some k /\ k <> [].
Proof.
  destruct o as [[|c k]|]; simpl; try discriminate.
  intros _. exists (c :: k). split; [reflexivity | discriminate].
Qed.

(** A text is a [str] or it is not. *)
Lemma text_str_or_not t :
  (exists s, get_text t = PStr s) \/ (forall s, get_text t <> PStr s).
Proof.
  destruct (get_text t); try (right; intros ?; discriminate).
  left. eauto.
Qed.

(** With a prompt and a key the endpoint is called, once. *)
Lemma image_trace_exact cfg w t s k :
  get_text t = PStr s ->
  ActionGenerateImage.prompt_of s <> [] ->
  IMAGE_API_KEY cfg = Some k -> k <> [] ->
  trace GenerateImage cfg w t =
    [RequestsPost (ActionGenerateImage.request k
                     (ActionGenerateImage.prompt_of s))].
Proof.
  intros Ht Hp Hk Hne. unfold trace.
  destruct (post w (ActionGenerateImage.request k
                      (ActionGenerateImage.prompt_of s)))
    as [r|e] eqn:Hpost.
  2:{ rewrite (image_post_raises cfg w t Ht Hp Hk Hne Hpost). reflexivity. }
  destruct (status_passes r) eqn:Hs.
  2:{ rewrite (image_bad_status cfg w t Ht Hp Hk Hne Hpost Hs). reflexivity. }
  destruct (body r) as [g|] eqn:Hb.
  2:{ rewrite (image_not_json cfg w t Ht Hp Hk Hne Hpost Hs Hb). reflexivity. }
  destruct (ActionGenerateImage.base64_of g) as [v|e] eqn:Hv.
  - rewrite (image_success cfg w t Ht Hp Hk Hne Hpost Hs Hb Hv). reflexivity.
  - rewrite (image_bad_shape cfg w t Ht Hp Hk Hne Hpost Hs Hb Hv). reflexivity.
Qed.

(** A request of the image action was made on a text that is a [str],
    with a prompt and a key. *)
Lemma image_trace_inv cfg w t c :
  In c (trace GenerateImage cfg w t) ->
  exists s k,
    get_text t = PStr s /\
    ActionGenerateImage.prompt_of s <> [] /\
    IMAGE_API_KEY cfg = Some k /\ k <> [] /\
    c = RequestsPost (ActionGenerateImage.request k
                        (ActionGenerateImage.prompt_of s)).
Proof.
  intros H.
  destruct (text_str_or_not t) as [[s Ht]|Hnot].
  2:{ unfold trace in H. rewrite (image_text_not_str cfg w t Hnot) in H.
      contradiction. }
  destruct (ActionGenerateImage.prompt_of s) as [|c0 p] eqn:Hp.
  { unfold trace in H. rewrite (image_usage cfg w t Ht Hp) in H. contradiction. }
  assert (Hne : ActionGenerateImage.prompt_of s <> [])
    by (rewrite Hp; discriminate).
  destruct (Py.truthy_opt (IMAGE_API_KEY cfg)) eqn:Hk.
  - apply truthy_opt_inv in Hk. destruct Hk as (k & Hk & Hkne).
    rewrite (image_trace_exact cfg w t Ht Hne Hk Hkne) in H.
    destruct H as [<-|[]].
    exists s, k. rewrite Hp in *. auto 10.
  - unfold trace in H. rewrite (image_no_key cfg w t Ht Hne Hk) in H.
    contradiction.
Qed.

(** X5.  Every request the image action makes carries a prompt that is
    not empty and neither starts nor ends with whitespace, and is made
    with a key that is set and not empty; the text it was parsed from is
    a [str]. *)
Theorem image_request_is_well_formed cfg w t c :
  In c (trace GenerateImage cfg w t) ->
  exists s k p,
    get_text t = PStr s /\
    c = RequestsPost (ActionGenerateImage.request k p) /\
    IMAGE_API_KEY cfg = Some k /\ k <> [] /\
    p = ActionGenerateImage.prompt_of s /\
    (exists first rest, p = first :: rest /\ isspace first = false) /\
    (exists init last, p = init ++ [last] /\ isspace last = false).
Proof.
  intros H. apply image_trace_inv in H.
  destruct H as (s & k & Ht & Hp & Hk & Hne & ->).
  exists s, k, (ActionGenerateImage.prompt_of s).
  repeat (split; [solve [auto]|]).
  destruct (nonempty_ends Hp) as [(c & r & E1) (r' & c' & E2)].
  split.
  - exists c, r. split; [exact E1|].
    unfold ActionGenerateImage.prompt_of in E1. exact (@strip_first _ _ _ E1).
  - exists r', c'. split; [exact E2|].
    unfold ActionGenerateImage.prompt_of in E2. exact (@strip_last _ _ _ E2).
Qed.

(** X5 at work: blanks on both sides of the prompt. *)
Lemma image_request_is_well_formed_witness :
  exists s k p,
    get_text (Sample.says "/imagine  a red bicycle ") = PStr s /\
    RequestsPost (ActionGenerateImage.request (lit "i-key") (lit "a red bicycle"))
      = RequestsPost (ActionGenerateImage.request k p) /\
    IMAGE_API_KEY Sample.cfg = Some k /\ k <> [] /\
    p = ActionGenerateImage.prompt_of s /\
    (exists first rest, p = first :: rest /\ isspace first = false) /\
    (exists init last, p = init ++ [last] /\ isspace last = false).
Proof.
  apply (@image_request_is_well_formed Sample.cfg Sample.unreachable
           (Sample.says "/imagine  a red bicycle ")).
  left. reflexivity.
Defined.

(** X6.  The trigger token is not required: a message that does not hold
    it is taken as the prompt, trimmed, and sent as any other. *)
Theorem message_without_token_is_sent cfg w t s k :
  get_text t = PStr s ->
  contains ActionGenerateImage.trigger s = false ->
  strip s <> [] ->
  IMAGE_API_KEY cfg = Some k -> k <> [] ->
  trace GenerateImage cfg w t =
    [RequestsPost (ActionGenerateImage.request k (strip s))].
Proof.
  intros Ht Hc Hs Hk Hne.
  pose proof (prompt_of_absent _ Hc) as E.
  rewrite <- E in *. apply image_trace_exact; assumption.
Qed.

(** X6 at work: a message without the token. *)
Lemma message_without_token_is_sent_witness :
  trace GenerateImage Sample.cfg Sample.unreachable (Sample.says " a red bicycle")
  = [RequestsPost (ActionGenerateImage.request (lit "i-key")
                     (strip (lit " a red bicycle")))].
Proof.
  apply (@message_without_token_is_sent Sample.cfg Sample.unreachable
           (Sample.says " a red bicycle") (lit " a red bicycle") (lit "i-key"));
    try reflexivity; vm_compute; discriminate.
Defined.



(** X8.  A message carries an image only when the image action went all
    the way: the text is a [str], a key is set, the request returned, the
    status passed, the body was JSON and had the base64 field.  The image
    is then [data:image/png;base64,] followed by that field as an
    f-string renders it, under the fixed caption.  No other action, and
    no failure path, attaches an image. *)
Theorem image_only_on_success a cfg w t m uri :
  In m (emitted a cfg w t) -> image m = Some uri ->
  a = GenerateImage /\
  text m = PStr ActionGenerateImage.caption /\
  exists s k r g v,
    get_text t = PStr s /\
    IMAGE_API_KEY cfg = Some k /\
    post w (ActionGenerateImage.request k
              (ActionGenerateImage.prompt_of s)) = Ok r /\
    status_passes r = true /\ body r = Some g /\
    ActionGenerateImage.base64_of g = Ok v /\
    uri = ActionGenerateImage.data_uri (format_value w v).
Proof.
  destruct a.
  1,3,4: all_cases; cbn [In]; intros [<-|[]]; discriminate.
  intros Hin Himg. split; [reflexivity|]. unfold emitted in Hin.
  destruct (text_str_or_not t) as [[s Ht]|Hnot].
  2:{ rewrite (image_text_not_str cfg w t Hnot) in Hin. contradiction. }
  destruct (ActionGenerateImage.prompt_of s) as [|c0 p] eqn:Hp.
  { rewrite (image_usage cfg w t Ht Hp) in Hin.
    destruct Hin as [<-|[]]. discriminate. }
  assert (Hne : ActionGenerateImage.prompt_of s <> [])
    by (rewrite Hp; discriminate).
  destruct (Py.truthy_opt (IMAGE_API_KEY cfg)) eqn:Hk.
  2:{ rewrite (image_no_key cfg w t Ht Hne Hk) in Hin.
      destruct Hin as [<-|[]]. discriminate. }
  apply truthy_opt_inv in Hk. destruct Hk as (k & Hk & Hkne).
  destruct (post w (ActionGenerateImage.request k
                      (ActionGenerateImage.prompt_of s)))
    as [r|e] eqn:Hpost.
  2:{ rewrite (image_post_raises cfg w t Ht Hne Hk Hkne Hpost) in Hin.
      destruct Hin as [<-|[]]. discriminate. }
  destruct (status_passes r) eqn:Hs.
  2:{ rewrite (image_bad_status cfg w t Ht Hne Hk Hkne Hpost Hs) in Hin.
      destruct Hin as [<-|[]]. discriminate. }
  destruct (body r) as [g|] eqn:Hb.
  2:{ rewrite (image_not_json cfg w t Ht Hne Hk Hkne Hpost Hs Hb) in Hin.
      destruct Hin as [<-|[]]. discriminate. }
  destruct (ActionGenerateImage.base64_of g) as [v|e] eqn:Hv.
  2:{ rewrite (image_bad_shape cfg w t Ht Hne Hk Hkne Hpost Hs Hb Hv) in Hin.
      destruct Hin as [<-|[]]. discriminate. }
  rewrite (image_success cfg w t Ht Hne Hk Hkne Hpost Hs Hb Hv) in Hin.
  destruct Hin as [<-|[]]. cbn [text image] in *.
  split; [reflexivity|]. exists s, k, r, g, v.
  injection Himg as <-. auto 10.
Qed.

(** X8 at work: the answer with AAAA. *)
Lemma image_only_on_success_witness :
  GenerateImage = GenerateImage /\
  PStr ActionGenerateImage.caption = PStr ActionGenerateImage.caption /\
  exists s k r g v,
    get_text (Sample.says "/imagine a red bicycle") = PStr s /\
    IMAGE_API_KEY Sample.cfg = Some k /\
    post Sample.image_reply
      (ActionGenerateImage.request k (ActionGenerateImage.prompt_of s)) = Ok r /\
    status_passes r = true /\ body r = Some g /\
    ActionGenerateImage.base64_of g = Ok v /\
    lit "data:image/png;base64,AAAA"
      = ActionGenerateImage.data_uri (format_value Sample.image_reply v).
Proof.
  apply (@image_only_on_success GenerateImage Sample.cfg Sample.image_reply
           (Sample.says "/imagine a red bicycle")
           {| text := PStr ActionGenerateImage.caption;
              image := Some (lit "data:image/png;base64,AAAA") |}
           (lit "data:image/png;base64,AAAA")).
  - left. reflexivity.
  - reflexivity.
Defined.

(** X9.  The base64 field is not checked: whatever JSON value it holds,
    string or not, is rendered into the data URI and sent as the image.
    A [null] field gives an image that ends in [None]. *)
Theorem base64_field_is_not_checked cfg w t s k r g v :
  get_text t = PStr s ->
  ActionGenerateImage.prompt_of s <> [] ->
  IMAGE_API_KEY cfg = Some k -> k <> [] ->
  post w (ActionGenerateImage.request k
            (ActionGenerateImage.prompt_of s)) = Ok r ->
  status_passes r = true ->
  body r = Some g ->
  ActionGenerateImage.base64_of g = Ok v ->
  emitted GenerateImage cfg w t =
    [{| text := PStr ActionGenerateImage.caption;
        image := Some (ActionGenerateImage.data_uri_prefix ++ format_value w v) |}] /\
  (v = PNone ->
   emitted GenerateImage cfg w t =
     [{| text := PStr ActionGenerateImage.caption;
         image := Some (lit "data:image/png;base64,None") |}]).
Proof.
  intros Ht Hp Hk Hne Hpost Hs Hb Hv. unfold emitted.
  rewrite (image_success cfg w t Ht Hp Hk Hne Hpost Hs Hb Hv).
  split; [reflexivity|]. intros ->. reflexivity.
Qed.

(** X9 at work: the service answers with a [null] field. *)
Lemma base64_field_is_not_checked_witness :
  emitted GenerateImage Sample.cfg More.null_image_reply
    (Sample.says "/imagine a red bicycle") =
    [{| text := PStr ActionGenerateImage.caption;
        image := Some (lit "data:image/png;base64,None") |}].
Proof.
  refine (proj2 (@base64_field_is_not_checked Sample.cfg More.null_image_reply
                   (Sample.says "/imagine a red bicycle")
                   (lit "/imagine a red bicycle") (lit "i-key")
                   {| status_code := 200;
                      body := Some (Sample.image_body PNone) |}
                   (Sample.image_body PNone) PNone eq_refl _ eq_refl _
                   eq_refl eq_refl eq_refl eq_refl) eq_refl);
    vm_compute; discriminate.
Defined.

(** *** The financial-advice action *)

(** X10.  The financial-advice action forwards the text of the answer,
    as it is and without logging anything, exactly when the request
    returns with a status below 400 or from 600 up, a JSON body, and the
    text field in it.  Statuses 1xx and 3xx count as success. *)
Theorem advice_forwards_iff cfg w t v :
  invoke FinancialAdvice cfg w t =
    ended [{| text := v; image := None |}] []
          [RequestsPost (ActionFinancialAdvice.request cfg (message_text w t))] <->
  exists r g,
    post w (ActionFinancialAdvice.request cfg (message_text w t)) = Ok r /\
    ((status_code r < 400)%Z \/ (600 <= status_code r)%Z) /\
    body r = Some g /\
    ActionFinancialAdvice.text_of g = Ok v.
Proof.
  split.
  - intros H.
    destruct (advice_outcomes cfg w t)
      as [[e He]|(r & g & v' & Hp & Hs & Hb & Ht & Hi)].
    + rewrite He in H. discriminate H.
    + rewrite Hi in H. injection H as <-.
      exists r, g. repeat split; try assumption.
      destruct (Z.lt_ge_cases (status_code r) 400) as [L|L]; [left; exact L|].
      destruct (Z.lt_ge_cases (status_code r) 600) as [U|U]; [|right; exact U].
      assert (status_passes r = false) by (apply status_passes_range; lia).
      congruence.
  - intros (r & g & Hp & Hst & Hb & Ht).
    assert (Hs : status_passes r = true).
    { destruct (status_passes r) eqn:Hs; [reflexivity|].
      apply status_passes_range in Hs. lia. }
    exact (advice_success cfg w t Hp Hs Hb Ht).
Qed.

(** X11.  The financial-advice action does not look at its key: with
    [GEMINI_API_KEY] unset the request is made all the same, with the
    text [None] in the place of the key. *)
Theorem advice_request_without_key cfg w t :
  GEMINI_API_KEY cfg = None ->
  exists r,
    trace FinancialAdvice cfg w t = [RequestsPost r] /\
    url r = GEMINI_API_URL ++ lit "?key=None" /\
    json r = ActionFinancialAdvice.payload (message_text w t).
Proof.
  intros H. exists (ActionFinancialAdvice.request cfg (message_text w t)).
  split; [apply advice_trace|].
  unfold ActionFinancialAdvice.request. cbn [url json]. rewrite H.
  split; reflexivity.
Qed.

(** X11 at work: no key for the text service. *)
Lemma advice_request_without_key_witness :
  exists r,
    trace FinancialAdvice More.cfg_no_text_key Sample.unreachable (Sample.says "hi")
      = [RequestsPost r] /\
    url r = GEMINI_API_URL ++ lit "?key=None" /\
    json r = ActionFinancialAdvice.payload (message_text Sample.unreachable (Sample.says "hi")).
Proof.
  apply (@advice_request_without_key More.cfg_no_text_key Sample.unreachable
           (Sample.says "hi")).
  reflexivity.
Defined.

(** *** The suggestion action *)

Ltac no_unit := repeat match goal with u : unit |- _ => destruct u end.

(** X12.  The suggestion action confirms exactly when every step went
    well, the closing [quit] included; in every other case it sends its
    fallback text.  It sends nothing else. *)
Theorem confirmation_iff_session_completes cfg w t :
  (emitted SubmitSuggestion cfg w t = [plain ActionSubmitSuggestion.confirmation] <->
   exists text, handed_over cfg w (message_text w t) text /\ smtp_quit w = Ok tt) /\
  (emitted SubmitSuggestion cfg w t = [plain ActionSubmitSuggestion.confirmation] \/
   emitted SubmitSuggestion cfg w t = [plain ActionSubmitSuggestion.fallback]).
Proof.
  unfold handed_over. all_cases; no_unit;
    (split;
     [ split;
       [ intros H; first [ discriminate H | eexists; repeat split; eassumption ]
       | intros (text & (? & ? & ? & ? & ? & ?) & ?);
         first [ reflexivity | congruence ] ]
     | first [ left; reflexivity | right; reflexivity ] ]).
Qed.

(** X13.  [quit] is called exactly when everything up to and including
    [sendmail] went well.  A session that was opened and then failed at
    STARTTLS, at the login, at the serialisation or at [sendmail] is left
    without [quit]. *)
Theorem quit_iff_handed_over cfg w t :
  In SMTPQuit (trace SubmitSuggestion cfg w t) <->
  exists text, handed_over cfg w (message_text w t) text.
Proof.
  unfold handed_over. all_cases; no_unit; cbn [In];
    (split;
     [ intros H;
       first [ eexists; repeat split; eassumption
             | repeat (destruct H as [H|H]; [discriminate H|]); contradiction ]
     | intros (text & ? & ? & ? & ? & ? & ?);
       first [ congruence | intuition auto ] ]).
Qed.

(** X14.  The credentials are presented only on a connection that was
    opened and on which STARTTLS went through; they are the configured
    address and password, and the three calls are the first three of the
    run. *)
Theorem login_only_after_starttls cfg w t u p :
  In (SMTPLogin u p) (trace SubmitSuggestion cfg w t) ->
  smtp_connect w (lit "smtp.gmail.com") 587 = Ok tt /\
  smtp_starttls w = Ok tt /\
  u = EMAIL_ADDRESS cfg /\ p = EMAIL_PASSWORD cfg /\
  firstn 3 (trace SubmitSuggestion cfg w t) =
    [SMTPOpen (lit "smtp.gmail.com") 587 None; SMTPStarttls; SMTPLogin u p].
Proof.
  all_cases; no_unit; cbn [In firstn]; intros H;
    repeat (destruct H as [H|H];
            [first [ discriminate H
                   | injection H as <- <-; repeat split; reflexivity ]|]);
    contradiction.
Qed.

(** X14 at work: the login is refused, after STARTTLS. *)
Lemma login_only_after_starttls_witness :
  smtp_connect Sample.login_refused (lit "smtp.gmail.com") 587 = Ok tt /\
  smtp_starttls Sample.login_refused = Ok tt /\
  Some (lit "bot@example.com") = EMAIL_ADDRESS Sample.cfg /\
  Some (lit "secret") = EMAIL_PASSWORD Sample.cfg /\
  firstn 3 (trace SubmitSuggestion Sample.cfg Sample.login_refused (Sample.says "hi")) =
    [SMTPOpen (lit "smtp.gmail.com") 587 None; SMTPStarttls;
     SMTPLogin (Some (lit "bot@example.com")) (Some (lit "secret"))].
Proof.
  apply (@login_only_after_starttls Sample.cfg Sample.login_refused
           (Sample.says "hi")).
  right. right. left. reflexivity.
Defined.

(** X15.  A mail is sent only after the login went through, from the
    configured address to the one fixed recipient, and what is sent is
    the serialised message; the user's text has no say in where the mail
    goes. *)
Theorem mail_goes_to_fixed_recipient cfg w t f r m :
  In (SMTPSendmail f r m) (trace SubmitSuggestion cfg w t) ->
  r = TO_EMAIL /\ f = EMAIL_ADDRESS cfg /\
  mime_as_string w (ActionSubmitSuggestion.envelope cfg (message_text w t)) = Ok m /\
  smtp_starttls w = Ok tt /\
  smtp_login w (EMAIL_ADDRESS cfg) (EMAIL_PASSWORD cfg) = Ok tt.
Proof.
  all_cases; no_unit; cbn [In]; intros H;
    repeat (destruct H as [H|H];
            [first [ discriminate H
                   | injection H as <- <- <-; repeat split; reflexivity ]|]);
    contradiction.
Qed.

(** X15 at work: a suggestion that goes through. *)
Lemma mail_goes_to_fixed_recipient_witness :
  TO_EMAIL = TO_EMAIL /\
  Some (lit "bot@example.com") = EMAIL_ADDRESS Sample.cfg /\
  mime_as_string Sample.unreachable
    (ActionSubmitSuggestion.envelope Sample.cfg (message_text Sample.unreachable (Sample.says "More FAQs")))
    = Ok (lit "MIME") /\
  smtp_starttls Sample.unreachable = Ok tt /\
  smtp_login Sample.unreachable (EMAIL_ADDRESS Sample.cfg) (EMAIL_PASSWORD Sample.cfg)
    = Ok tt.
Proof.
  apply (@mail_goes_to_fixed_recipient Sample.cfg Sample.unreachable
           (Sample.says "More FAQs")).
  do 3 right. left. reflexivity.
Defined.

(** X16.  When the relay has taken the mail and the closing [quit]
    raises, the suggestion action still reports its fallback text and
    logs the exception, although the mail went out. *)
Theorem failed_quit_hides_delivery cfg w t text e :
  handed_over cfg w (message_text w t) text ->
  smtp_quit w = Raise e ->
  In (SMTPSendmail (EMAIL_ADDRESS cfg) TO_EMAIL text)
     (trace SubmitSuggestion cfg w t) /\
  emitted SubmitSuggestion cfg w t = [plain ActionSubmitSuggestion.fallback] /\
  printed (snd (invoke SubmitSuggestion cfg w t)) =
    [(lit "Error sending suggestion email: ", e)].
Proof.
  intros (H1 & H2 & H3 & H4 & H5 & H6) H7. unfold_run.
  given H1. given H2. given H3. given H4. given H5. given H6. given H7.
  repeat split. cbn [In]. auto 10.
Qed.

(** X16 at work: the relay drops the connection at [quit]. *)
Lemma failed_quit_hides_delivery_witness :
  In (SMTPSendmail (EMAIL_ADDRESS Sample.cfg) TO_EMAIL (lit "MIME"))
     (trace SubmitSuggestion Sample.cfg More.quit_fails (Sample.says "More FAQs")) /\
  emitted SubmitSuggestion Sample.cfg More.quit_fails (Sample.says "More FAQs")
    = [plain ActionSubmitSuggestion.fallback] /\
  printed (snd (invoke SubmitSuggestion Sample.cfg More.quit_fails
                  (Sample.says "More FAQs")))
    = [(lit "Error sending suggestion email: ", SMTPServerDisconnected)].
Proof.
  apply (@failed_quit_hides_delivery Sample.cfg More.quit_fails
           (Sample.says "More FAQs") (lit "MIME") SMTPServerDisconnected).
  - repeat split.
  - reflexivity.
Defined.

(** *** Logging and defaults *)

(** X17.  A run prints at most one line.  When it prints one, the line
    is the action's own prefix followed by the exception caught, and the
    message emitted is the action's fallback text; the FAQ action never
    prints.  When the image action or the suggestion action prints
    nothing, what it emits is not its fallback text. *)
Theorem log_line_means_fallback a cfg w t :
  (printed (snd (invoke a cfg w t)) = [] /\
   (a = GenerateImage \/ a = SubmitSuggestion ->
    emitted a cfg w t <> [plain (fallback_of a)])) \/
  (exists e,
      printed (snd (invoke a cfg w t)) = [(log_prefix a, e)] /\
      emitted a cfg w t = [plain (fallback_of a)] /\
      a <> GetFAQ).
Proof.
  destruct a; all_cases; cbn [fallback_of log_prefix];
    first
      [ right; eexists; split; [reflexivity | split; [reflexivity | discriminate]]
      | left; split; [reflexivity|];
        intros [H|H]; first [ discriminate H | intros E; vm_compute in E; discriminate E ] ].
Qed.

(** X18.  A snapshot whose latest message has no text entry is handled as
    the empty message: the image action answers with its usage text and
    makes no call, and the financial-advice action sends the bare
    template. *)
Theorem missing_text_is_empty_message cfg w t :
  latest_message_text t = None ->
  emitted GenerateImage cfg w t = [plain ActionGenerateImage.usage] /\
  trace GenerateImage cfg w t = [] /\
  trace FinancialAdvice cfg w t =
    [RequestsPost (ActionFinancialAdvice.request cfg [])] /\
  forall a, invoke a cfg w t = invoke a cfg w {| latest_message_text := Some (PStr []) |}.
Proof.
  intros H. destruct t as [o]. cbn in H. subst o.
  split; [reflexivity|]. split; [reflexivity|].
  split; [apply advice_trace|].
  intros a. destruct a; reflexivity.
Qed.

(** X18 at work. *)
Lemma missing_text_is_empty_message_witness :
  emitted GenerateImage Sample.cfg Sample.image_reply More.no_text
    = [plain ActionGenerateImage.usage] /\
  trace GenerateImage Sample.cfg Sample.image_reply More.no_text = [].
Proof.
  destruct (@missing_text_is_empty_message Sample.cfg Sample.image_reply
              More.no_text eq_refl) as (H1 & H2 & _).
  split; assumption.
Defined.

Example status_600_is_forwarded :
  emitted FinancialAdvice Sample.cfg More.odd_status_reply (Sample.says "hi")
  = [{| text := PStr (lit "Diversify."); image := None |}].
Proof. reflexivity. Qed.

(** *** What a run returns *)

(** X19.  A run either returns the empty list of events, or it is the
    image action on a text that is not a [str]: that run raises
    [AttributeError] before its [try], with no message sent and no call
    made.  Every other run returns, whatever the outside world does. *)
Theorem run_returns_nil_or_text_is_not_str a cfg w t :
  returned a cfg w t = Ok [] \/
  (a = GenerateImage /\
   (forall s, get_text t <> PStr s) /\
   invoke a cfg w t = (Raise AttributeError, st0)).
Proof.
  destruct (returned a cfg w t) as [evs|e] eqn:H.
  - left. f_equal. exact (returns_nil_if_returns a cfg w t H).
  - right. destruct (raises_only_on_text a cfg w t H) as (Ha & _ & Hs & Hi).
    auto.
Qed.
